(** * appstreamlint: a shallow embedding of the validator in [appstreamlint.go]

    The Go program decodes one AppStream MetaInfo document into a [Component]
    and then runs a fixed sequence of checks in [main], printing findings with
    [fmt.Println] and stopping with [os.Exit(1)] at the first error.  This
    file embeds the part of [main] that follows [xml.Unmarshal]: the decoded
    component and the command-line path are the inputs.

    Strings are Go strings, i.e. byte sequences: [len] counts bytes and
    [s[i:j]] slices bytes, which is what Rocq's [string] (a list of 8-bit
    [ascii]) gives. *)

From Stdlib Require Import ZArith Lia Ascii String List.
From stdpp Require Import base option list gmap strings.

Local Open Scope Z_scope.

(** ** The Go runtime as far as [main] uses it *)

Module Go.

(** How a run stops before the end of [main]: [os.Exit(code)], or the
    run-time panic of a slice expression whose bounds are out of range
    (the process then dies with exit status 2 and a trace on stderr). *)
Inductive halt : Type :=
| Exit (code : Z)
| PanicSliceBounds (bound length : Z).

(** A computation prints lines on standard output and then either halts
    or goes on with a value. Each element of the output is the text of one
    [Println]/[Printf] call, without its final newline. *)
Definition M (A : Type) : Type := (list string * (halt + A))%type.

Definition ret {A} (a : A) : M A := ([], inr a).

Definition bind {A B} (f : A → M B) (m : M A) : M B :=
  match m with
  | (out, inl h) => (out, inl h)
  | (out, inr a) => let '(out', r) := f a in (out ++ out', r)
  end.

#[global] Instance M_ret : MRet M := @ret.
#[global] Instance M_bind : MBind M := @bind.

Definition stdout {A} (m : M A) : list string := m.1.
Definition outcome {A} (m : M A) : halt + A := m.2.

(** [fmt.Println] of already formatted operands: one line. *)
Definition Println (line : string) : M unit := ([line], inr tt).

(** [os.Exit]. *)
Definition os_Exit {A} (code : Z) : M A := ([], inl (Exit code)).

(** [len(s)], a Go [int]. *)
Definition len (s : string) : Z := Z.of_nat (String.length s).

(** [s[:hi]]: panics unless [0 <= hi <= len(s)]. *)
Definition sliceTo (s : string) (hi : Z) : M string :=
  if (0 <=? hi) && (hi <=? len s)
  then ret (String.substring 0 (Z.to_nat hi) s)
  else ([], inl (PanicSliceBounds hi (len s))).

(** [s[lo:]]: panics unless [0 <= lo <= len(s)]. *)
Definition sliceFrom (s : string) (lo : Z) : M string :=
  if (0 <=? lo) && (lo <=? len s)
  then ret (String.substring (Z.to_nat lo) (String.length s - Z.to_nat lo) s)
  else ([], inl (PanicSliceBounds lo (len s))).

(** How [fmt.Println] shows a [[]string]: [[a b c]]. *)
Fixpoint joinSpace (l : list string) : string :=
  match l with
  | [] => ""
  | [x] => x
  | x :: rest => x +:+ " " +:+ joinSpace rest
  end.

Definition fmtSlice (l : list string) : string := "[" +:+ joinSpace l +:+ "]".

(** [for k, v := range m]: the language leaves the order of the keys
    open, and the runtime picks a different one from run to run. The
    order of one run is a parameter: a list of the map's keys. *)
Definition iterationOrder {V} (m : gmap string V) (order : list string) : Prop :=
  order ≡ₚ (map_to_list m).*1.

Fixpoint rangeMap {V} (order : list string) (m : gmap string V)
    (body : string → V → M unit) : M unit :=
  match order with
  | [] => ret tt
  | k :: rest =>
      match m !! k with
      | Some v => body k v ;; rangeMap rest m body
      | None => rangeMap rest m body
      end
  end.

(** What the shell sees: 0 when [main] returns, the argument of
    [os.Exit], 2 after a panic. *)
Definition exitStatus (m : M unit) : Z :=
  match outcome m with
  | inr _ => 0
  | inl (Exit code) => code
  | inl (PanicSliceBounds _ _) => 2
  end.

End Go.

Import Go.

(** ** The data model (the structs the XML is decoded into) *)

Record Launchable : Type := {
  LaunchableType : string;      (* Launchable.Type,     xml:"type,attr" *)
  Contents : string;            (* Launchable.Contents, xml:",chardata" *)
}.

Record Image : Type := {
  ImageType : string;           (* Image.Type,   xml:"type,attr" *)
  Width : Z;
  Height : Z;
  Source : string;
}.

Record Screenshot : Type := {
  Caption : string;
  ScreenshotImage : Image;      (* Screenshot.Image *)
  Environment : string;
}.

Record Component : Type := {
  Type_ : string;               (* Component.Type, xml:"type,attr" *)
  ID : string;
  Name : string;
  Summary : string;
  MetadataLicense : string;
  ProjectLicense : string;
  Description : string;
  Launchable_ : Launchable;     (* Component.Launchable *)
  Screenshots : list Screenshot;
}.

(** ** The checks of [main], in source order *)

(** Lines 70-77. *)
Definition checkFilename (filePath : string) (component : Component) : M unit :=
  if negb (filePath =? ID component +:+ ".appdata.xml")%string
     && negb (filePath =? ID component +:+ ".metainfo.xml")%string
  then
    Println "Error: Filename must be the same as the ID with .appdata.xml extension" ;;
    Println ("Correct filename: " +:+ ID component +:+ ".metainfo.xml") ;;
    Println ("Actual filename: " +:+ filePath) ;;
    os_Exit 1
  else mret tt.

(** Lines 80-90: the map literal. *)
Definition requiredFields (component : Component) : gmap string string :=
  <["Type" := Type_ component]> (
  <["ID" := ID component]> (
  <["Name" := Name component]> (
  <["Summary" := Summary component]> (
  <["MetadataLicense" := MetadataLicense component]> (
  <["ProjectLicense" := ProjectLicense component]> (
  <["Description" := Description component]> (
  <["LaunchableType" := LaunchableType (Launchable_ component)]> (
  <["Launchable" := Contents (Launchable_ component)]> ∅)))))))).

(** Lines 92-97: the body of the [range] loop. *)
Definition requiredBody (field value : string) : M unit :=
  if (value =? "")%string
  then Println ("Error: " +:+ field +:+ " must not be empty") ;; os_Exit 1
  else mret tt.

Definition checkRequiredFields (order : list string) (component : Component) : M unit :=
  rangeMap order (requiredFields component) requiredBody.

(** Lines 103-106. *)
Definition checkType (component : Component) : M unit :=
  if negb (Type_ component =? "desktop-application")%string
     && negb (Type_ component =? "desktop")%string
  then Println "Error: Type must be 'desktop-application'" ;; os_Exit 1
  else mret tt.

(** Lines 117-132. *)
Definition allowedLicenses : list string :=
  ["FSFAP"; "MIT"; "0BSD"; "CC0-1.0"; "CC-BY-3.0"; "CC-BY-4.0";
   "CC-BY-SA-3.0"; "CC-BY-SA-4.0"; "GFDL-1.1"; "GFDL-1.2"; "GFDL-1.3";
   "BSL-1.0"; "FTL"; "FSFUL"].

(** Lines 134-140: the loop that sets [allowed] and breaks. *)
Fixpoint licenseAllowed (license : string) (licenses : list string) : bool :=
  match licenses with
  | [] => false
  | l :: rest => if (license =? l)%string then true else licenseAllowed license rest
  end.

(** Lines 134-145. *)
Definition checkMetadataLicense (component : Component) : M unit :=
  if negb (licenseAllowed (MetadataLicense component) allowedLicenses)
  then
    Println "Warning: Metadata license is not allowed" ;;
    Println ("Allowed licenses: " +:+ fmtSlice allowedLicenses) ;;
    Println ("Actual license: " +:+ MetadataLicense component)
  else mret tt.

(** Lines 149-152. *)
Definition checkName (component : Component) : M unit :=
  if len (Name component) <? 2
  then Println "Error: Name must be at least 2 characters long" ;; os_Exit 1
  else mret tt.

(** Lines 156-159. *)
Definition checkSummary (component : Component) : M unit :=
  if len (Summary component) <? 10
  then Println "Error: Summary must be at least 10 characters long" ;; os_Exit 1
  else mret tt.

(** Lines 166-170. *)
Definition checkLaunchable (component : Component) : M unit :=
  if negb (LaunchableType (Launchable_ component) =? "desktop-id")%string
  then
    Println "Error: Launchable type must be 'desktop-id'" ;;
    Println ("Actual launchable type: " +:+ LaunchableType (Launchable_ component)) ;;
    os_Exit 1
  else mret tt.

(** Lines 183-186. *)
Definition checkImageType (image : Image) : M unit :=
  if negb (ImageType image =? "source")%string
     && negb (ImageType image =? "video")%string
     && negb (ImageType image =? "")%string
  then Println "Error: Image type must be 'source' or 'video'" ;; os_Exit 1
  else mret tt.

(** Line 191, the condition: [||] and [&&] evaluate their right operand
    only when the left one does not decide, so [Source[:7]] is taken only
    when [len >= 7] and [Source[:8]] only when [Source[:7] != "http://"]. *)
Definition badPrefix (source : string) : M bool :=
  if len source <? 7 then mret true
  else
    p7 ← sliceTo source 7;
    if negb (p7 =? "http://")%string
    then p8 ← sliceTo source 8; mret (negb (p8 =? "https://")%string)
    else mret false.

(** Lines 191-194. *)
Definition checkSourcePrefix (source : string) : M unit :=
  bad ← badPrefix source;
  if (bad : bool)
  then Println "Error: Image source must start with http:// or https://" ;; os_Exit 1
  else mret tt.

(** Line 196. *)
Definition validExtensions : list string := [".png"; ".jpg"; ".jpeg"].

(** Lines 197-203: the loop that sets [valid] and breaks. *)
Fixpoint hasValidExtension (source : string) (exts : list string) : M bool :=
  match exts with
  | [] => mret false
  | ext :: rest =>
      hit ← (if len source >? len ext
             then tail ← sliceFrom source (len source - len ext);
                  mret (tail =? ext)%string
             else mret false);
      if (hit : bool) then mret true else hasValidExtension source rest
  end.

(** Lines 196-209. *)
Definition checkSourceExtension (source : string) : M unit :=
  valid ← hasValidExtension source validExtensions;
  if (valid : bool) then mret tt
  else
    Println "Error: Image source must end with a valid image extension" ;;
    Println ("Valid extensions: " +:+ fmtSlice validExtensions) ;;
    actual ← sliceFrom source (len source - 4);
    Println ("Actual extension: " +:+ actual) ;;
    os_Exit 1.

(** Lines 183-210: the body of the loop over the screenshots. *)
Definition checkScreenshot (screenshot : Screenshot) : M unit :=
  checkImageType (ScreenshotImage screenshot) ;;
  if (ImageType (ScreenshotImage screenshot) =? "source")%string
  then
    checkSourcePrefix (Source (ScreenshotImage screenshot)) ;;
    checkSourceExtension (Source (ScreenshotImage screenshot))
  else mret tt.

(** Line 182: [for _, screenshot := range component.Screenshots]. *)
Fixpoint rangeScreenshots (screenshots : list Screenshot) : M unit :=
  match screenshots with
  | [] => mret tt
  | screenshot :: rest => checkScreenshot screenshot ;; rangeScreenshots rest
  end.

(** Lines 174-213, with the inner test of line 177 as the source has it. *)
Definition checkScreenshots (component : Component) : M unit :=
  if Z.of_nat (length (Screenshots component)) =? 0
  then Println "Warning: No screenshots tag found"
  else
    (if Z.of_nat (length (Screenshots component)) =? 0
     then Println "Error: No screenshot tag found inside screenshots tag" ;; os_Exit 1
     else mret tt) ;;
    rangeScreenshots (Screenshots component).

(** [main] from line 66 on. [order] is the order in which this run's
    [range] visits the keys of [requiredFields]. *)
Definition main (order : list string) (filePath : string) (component : Component) : M unit :=
  checkFilename filePath component ;;
  checkRequiredFields order component ;;
  checkType component ;;
  checkMetadataLicense component ;;
  checkName component ;;
  checkSummary component ;;
  checkLaunchable component ;;
  checkScreenshots component ;;
  Println "Validation complete.".

(** ** Findings, and the properties the statements below speak of *)

(** [s] starts with [p]; [s] ends with [e]. Bytes are compared as they
    are, so both are case-sensitive. *)
Definition hasPrefix (s p : string) : Prop := ∃ t, s = p +:+ t.

Definition hasSuffix (s e : string) : Prop := ∃ p, s = p +:+ e.

(** A check that can only pass silently or stop with [os.Exit(1)]. *)
Definition passOrExit1 (m : M unit) : Prop :=
  outcome m = inr tt ∨ outcome m = inl (Exit 1).

Definition filenameError (filePath : string) (component : Component) : M unit :=
  (["Error: Filename must be the same as the ID with .appdata.xml extension";
    "Correct filename: " +:+ ID component +:+ ".metainfo.xml";
    "Actual filename: " +:+ filePath], inl (Exit 1)).

Definition filenameMatches (filePath : string) (component : Component) : Prop :=
  filePath = ID component +:+ ".appdata.xml" ∨
  filePath = ID component +:+ ".metainfo.xml".

(** The keys of the map literal, in the order of the source text. *)
Definition fieldNames : list string :=
  ["Type"; "ID"; "Name"; "Summary"; "MetadataLicense"; "ProjectLicense";
   "Description"; "LaunchableType"; "Launchable"].

Definition presenceError (field : string) : M unit :=
  (["Error: " +:+ field +:+ " must not be empty"], inl (Exit 1)).

(** The first key of [order] whose value is empty: where the loop stops. *)
Fixpoint firstEmpty (order : list string) (m : gmap string string) : option string :=
  match order with
  | [] => None
  | k :: rest =>
      match m !! k with
      | Some v => if (v =? "")%string then Some k else firstEmpty rest m
      | None => firstEmpty rest m
      end
  end.

(** All nine mandatory fields are non-empty. *)
Definition allPresent (component : Component) : Prop :=
  Type_ component ≠ "" ∧ ID component ≠ "" ∧ Name component ≠ "" ∧
  Summary component ≠ "" ∧ MetadataLicense component ≠ "" ∧
  ProjectLicense component ≠ "" ∧ Description component ≠ "" ∧
  LaunchableType (Launchable_ component) ≠ "" ∧
  Contents (Launchable_ component) ≠ "".

(** One of the nine mandatory fields is empty. *)
Definition someAbsent (component : Component) : Prop :=
  Type_ component = "" ∨ ID component = "" ∨ Name component = "" ∨
  Summary component = "" ∨ MetadataLicense component = "" ∨
  ProjectLicense component = "" ∨ Description component = "" ∨
  LaunchableType (Launchable_ component) = "" ∨
  Contents (Launchable_ component) = "".

Definition typeError : M unit :=
  (["Error: Type must be 'desktop-application'"], inl (Exit 1)).

Definition nameError : M unit :=
  (["Error: Name must be at least 2 characters long"], inl (Exit 1)).

Definition summaryError : M unit :=
  (["Error: Summary must be at least 10 characters long"], inl (Exit 1)).

Definition launchableError (component : Component) : M unit :=
  (["Error: Launchable type must be 'desktop-id'";
    "Actual launchable type: " +:+ LaunchableType (Launchable_ component)],
   inl (Exit 1)).

Definition typeAllowed (component : Component) : Prop :=
  Type_ component = "desktop-application" ∨ Type_ component = "desktop".

(** The three lines of the licence warning. *)
Definition licenseWarning (component : Component) : list string :=
  ["Warning: Metadata license is not allowed";
   "Allowed licenses: [FSFAP MIT 0BSD CC0-1.0 CC-BY-3.0 CC-BY-4.0 CC-BY-SA-3.0 CC-BY-SA-4.0 GFDL-1.1 GFDL-1.2 GFDL-1.3 BSL-1.0 FTL FSFUL]";
   "Actual license: " +:+ MetadataLicense component].

Definition prefixError : M unit :=
  (["Error: Image source must start with http:// or https://"], inl (Exit 1)).

Definition imageTypeError : M unit :=
  (["Error: Image type must be 'source' or 'video'"], inl (Exit 1)).

(** The last [n] bytes of [s]. *)
Definition lastBytes (n : nat) (s : string) : string :=
  String.substring (String.length s - n) n s.

Definition extensionError (source : string) : M unit :=
  (["Error: Image source must end with a valid image extension";
    "Valid extensions: [.png .jpg .jpeg]";
    "Actual extension: " +:+ lastBytes 4 source], inl (Exit 1)).

Definition httpPrefix (source : string) : Prop :=
  hasPrefix source "http://" ∨ hasPrefix source "https://".

Definition imageSuffix (source : string) : Prop :=
  hasSuffix source ".png" ∨ hasSuffix source ".jpg" ∨ hasSuffix source ".jpeg".

(** What the decoded document must satisfy for one screenshot: the image
    type is one of the three accepted ones, and the source of a "source"
    image starts and ends as required. *)
Definition screenshotOk (screenshot : Screenshot) : Prop :=
  (ImageType (ScreenshotImage screenshot) = "source" ∨
   ImageType (ScreenshotImage screenshot) = "video" ∨
   ImageType (ScreenshotImage screenshot) = "") ∧
  (ImageType (ScreenshotImage screenshot) = "source" →
   httpPrefix (Source (ScreenshotImage screenshot)) ∧
   imageSuffix (Source (ScreenshotImage screenshot))).

(** Every line that [m] prints satisfies [P]. *)
Definition prints {A} (P : string → Prop) (m : M A) : Prop :=
  ∀ line, line ∈ stdout m → P line.

(** The message of line 178. *)
Definition deadLine : string :=
  "Error: No screenshot tag found inside screenshots tag".

(** ** Documents used as concrete inputs *)

Definition screenshotOf (imageType source : string) : Screenshot :=
  {| Caption := "Main window";
     ScreenshotImage :=
       {| ImageType := imageType; Width := 1280; Height := 720; Source := source |};
     Environment := "" |}.

Definition document (type_ id name summary license : string)
    (screenshots : list Screenshot) : Component :=
  {| Type_ := type_; ID := id; Name := name; Summary := summary;
     MetadataLicense := license; ProjectLicense := "GPL-3.0-or-later";
     Description := "A plain text editor.";
     Launchable_ := {| LaunchableType := "desktop-id";
                       Contents := "org.example.Editor.desktop" |};
     Screenshots := screenshots |}.

(** The minimal valid document: name of 5 bytes, summary of 20, no
    screenshots, licence MIT. *)
Definition minimalDocument : Component :=
  document "desktop-application" "org.example.Editor" "Edit0"
    "Edits plain text now" "MIT" [].

(** A document that passes every check before the screenshots and whose
    only screenshot has a seven-byte source that is not "http://". *)
Definition sevenByteSourceDocument : Component :=
  document "desktop-application" "org.example.Editor" "Editor"
    "Edits plain text" "MIT" [screenshotOf "source" "ftp://x"].

Definition emptyIdDocument : Component :=
  document "desktop-application" "" "Editor" "Edits plain text" "MIT" [].

Definition noSummaryDocument : Component :=
  document "desktop-application" "org.example.Editor" "Editor" "" "MIT" [].

(** The mandatory rules as the specification lists them: the file name
    matches the id, the nine fields are present, the component type is an
    allowed one, name and summary are long enough, the launchable type is
    "desktop-id", and every screenshot is acceptable. *)
Definition mandatoryRules (filePath : string) (component : Component) : Prop :=
  (filePath = ID component +:+ ".appdata.xml"
   ∨ filePath = ID component +:+ ".metainfo.xml") ∧
  allPresent component ∧
  (Type_ component = "desktop-application" ∨ Type_ component = "desktop") ∧
  2 ≤ len (Name component) ∧
  10 ≤ len (Summary component) ∧
  LaunchableType (Launchable_ component) = "desktop-id" ∧
  Forall screenshotOk (Screenshots component).

(** The warnings of a run, in the order they are printed. *)
Definition advisories (component : Component) : list string :=
  (if bool_decide (MetadataLicense component ∈ allowedLicenses)
   then [] else licenseWarning component)
  ++ match Screenshots component with
     | [] => ["Warning: No screenshots tag found"]
     | _ :: _ => []
     end.

(** The minimal document with a licence outside the allow-list. *)
Definition gplMetadataDocument : Component :=
  document "desktop-application" "org.example.Editor" "Edit0"
    "Edits plain text now" "GPL-3.0" [].

(** A valid document with one screenshot and a licence outside the list. *)
Definition oneScreenshotDocument : Component :=
  document "desktop" "org.example.Editor" "Edit0" "Edits plain text now" "GPL-3.0"
    [screenshotOf "source" "https://example.com/a.png"].

Definition serviceDocument : Component :=
  document "service" "org.example.Editor" "Edit0" "Edits plain text now" "MIT" [].

Definition lengthsDocument (name summary : string) : Component :=
  document "desktop-application" "org.example.Editor" name summary "MIT" [].

(** Name and summary are both absent. *)
Definition twoAbsentDocument : Component :=
  document "desktop-application" "org.example.Editor" "" "" "MIT" [].

(** At most one of the mandatory fields is empty. *)
Definition atMostOneAbsent (component : Component) : Prop :=
  ∀ field1 field2,
    requiredFields component !! field1 = Some "" →
    requiredFields component !! field2 = Some "" → field1 = field2.

(** ** The start of [main], and further properties *)

(** Lines 41-64, then the checks. [os.Open], [ioutil.ReadAll] and
    [xml.Unmarshal] belong to Go's library: they are parameters, each
    returning either the text of its error or its value. [len(os.Args) < 2]
    is the case of an argument list without a second element. The deferred
    [Close] is not modelled: it prints nothing, and [os.Exit] skips it. *)
Section start_of_main.
Context {File Bytes : Type}.
Variable os_Open : string → string + File.
Variable ioutil_ReadAll : File → string + Bytes.
Variable xml_Unmarshal : Bytes → string + Component.

Definition program (order : list string) (os_Args : list string) : M unit :=
  match os_Args with
  | _ :: filePath :: _ =>
      match os_Open filePath with
      | inl err => Println ("Error opening file: " +:+ err) ;; os_Exit 1
      | inr xmlFile =>
          match ioutil_ReadAll xmlFile with
          | inl err => Println ("Error reading file: " +:+ err) ;; os_Exit 1
          | inr byteValue =>
              match xml_Unmarshal byteValue with
              | inl err => Println ("Error parsing XML: " +:+ err) ;; os_Exit 1
              | inr component => main order filePath component
              end
          end
      end
  | _ => Println "Usage: appstreamlint <file>" ;; os_Exit 1
  end.

End start_of_main.

(** The rules of steps 1 to 7, which look at the scalar fields only. *)
Definition scalarRules (filePath : string) (component : Component) : Prop :=
  (filePath = ID component +:+ ".appdata.xml"
   ∨ filePath = ID component +:+ ".metainfo.xml") ∧
  allPresent component ∧
  (Type_ component = "desktop-application" ∨ Type_ component = "desktop") ∧
  2 ≤ len (Name component) ∧
  10 ≤ len (Summary component) ∧
  LaunchableType (Launchable_ component) = "desktop-id".

(** A screenshot on which the prefix check panics: a "source" image whose
    source has seven bytes and is not "http://". *)
Definition panickingScreenshot (screenshot : Screenshot) : Prop :=
  ImageType (ScreenshotImage screenshot) = "source" ∧
  len (Source (ScreenshotImage screenshot)) = 7 ∧
  Source (ScreenshotImage screenshot) ≠ "http://".

(** Of a list of lines, or of texts, those that start with "Error: ". *)
Definition errorLines (out : list string) : list string :=
  List.filter (String.prefix "Error: ") out.

(** [s] contains the byte [c]. *)
Fixpoint hasByte (c : ascii) (s : string) : bool :=
  match s with
  | EmptyString => false
  | String c' rest => if Ascii.eqb c c' then true else hasByte c rest
  end.

(** The same document with another metadata licence. *)
Definition withMetadataLicense (license : string) (component : Component) : Component :=
  {| Type_ := Type_ component; ID := ID component; Name := Name component;
     Summary := Summary component; MetadataLicense := license;
     ProjectLicense := ProjectLicense component;
     Description := Description component;
     Launchable_ := Launchable_ component;
     Screenshots := Screenshots component |}.

(** The same document with another launchable. *)
Definition withLaunchable (launchableType contents : string) (component : Component)
    : Component :=
  {| Type_ := Type_ component; ID := ID component; Name := Name component;
     Summary := Summary component; MetadataLicense := MetadataLicense component;
     ProjectLicense := ProjectLicense component;
     Description := Description component;
     Launchable_ := {| LaunchableType := launchableType; Contents := contents |};
     Screenshots := Screenshots component |}.

(** Among the texts that [m] hands to [Println], one starts with "Error: "
    when [m] ends with [os.Exit], and none otherwise. These are texts, not
    lines of the output: a text that echoes a field with line feeds in it is
    several lines (see [stdoutLines]). *)
Definition accounted {A} (m : M A) : Prop :=
  length (errorLines (stdout m))
  = match outcome m with inl (Exit _) => 1%nat | _ => 0%nat end.

(** The heading of a text that one of the checks hands to [Println]. *)
Definition checkLine (line : string) : bool :=
  String.prefix "Error: " line || String.prefix "Warning: " line
  || String.prefix "Correct filename:" line || String.prefix "Actual " line
  || String.prefix "Allowed licenses: " line
  || String.prefix "Valid extensions: " line.

(** "Validation complete." is among the texts that [m] hands to [Println]
    exactly when [m] returns, and is then the last of them. Texts, not lines
    of the output (see [stdoutLines]). *)
Definition completes (m : M unit) : Prop :=
  ("Validation complete." ∈ stdout m ↔ outcome m = inr tt) ∧
  (outcome m = inr tt → last (stdout m) = Some "Validation complete.").

(** ** Standard output as bytes and as lines *)

(** The line feed that [Println] writes after its text. *)
Definition LF : ascii := "010"%char.

(** The bytes that reach standard output: each text followed by a line
    feed. *)
Fixpoint standardOutput (texts : list string) : string :=
  match texts with
  | [] => ""
  | text :: rest => text +:+ String LF (standardOutput rest)
  end.

(** The lines of a byte stream: the stretches between line feeds, and the
    rest after the last one if there is any. *)
Fixpoint linesOf (s : string) : list string :=
  match s with
  | EmptyString => []
  | String c rest =>
      if Ascii.eqb LF c then "" :: linesOf rest
      else match linesOf rest with
           | [] => [String c ""]
           | line :: lines => String c line :: lines
           end
  end.

(** The lines that a reader of standard output sees. *)
Definition stdoutLines {A} (m : M A) : list string :=
  linesOf (standardOutput (stdout m)).

(** [s] has no line feed in it. *)
Definition oneLine (s : string) : Prop := hasByte LF s = false.

(** None of the strings that a run may echo has a line feed in it: the
    file name, the id, the metadata licence, the launchable type and the
    sources of the images. *)
Definition oneLineFields (filePath : string) (component : Component) : Prop :=
  oneLine filePath ∧ oneLine (ID component) ∧
  oneLine (MetadataLicense component) ∧
  oneLine (LaunchableType (Launchable_ component)) ∧
  Forall (λ screenshot, oneLine (Source (ScreenshotImage screenshot)))
    (Screenshots component).

(** ** Characters *)

(** A byte that continues a UTF-8 character: 10xxxxxx. *)
Definition utf8Continuation (b : ascii) : bool :=
  match b with Ascii _ _ _ _ _ _ b6 b7 => b7 && negb b6 end.

(** The length of a UTF-8 text in characters, the unit in which the
    specification and the messages of the program state the minimum
    lengths: the bytes that do not continue a character. *)
Fixpoint utf8Characters (s : string) : nat :=
  match s with
  | EmptyString => 0%nat
  | String b rest =>
      ((if utf8Continuation b then 0 else 1) + utf8Characters rest)%nat
  end.

(** "é" in UTF-8: the bytes C3 A9. *)
Definition eAcute : string := String "195" (String "169" "").

(** A document whose name is the one character "é" and whose summary is
    nine times "é"; everything else as in the minimal document. *)
Definition multibyteDocument : Component :=
  document "desktop-application" "org.example.Editor" eAcute
    (eAcute +:+ eAcute +:+ eAcute +:+ eAcute +:+ eAcute +:+ eAcute +:+ eAcute
     +:+ eAcute +:+ eAcute) "MIT" [].

(** * Lemmas *)

(** ** Strings: slices against prefixes and suffixes *)

Section string_facts.
Local Open Scope nat_scope.

Lemma string_app_length (a b : string) :
  String.length (a +:+ b) = String.length a + String.length b.
Proof. induction a as [|c a IH]; simpl; [done | by rewrite IH]. Qed.

Lemma substring_whole (s : string) : String.substring 0 (String.length s) s = s.
Proof. induction s as [|c s IH]; simpl; [done | by rewrite IH]. Qed.

Lemma substring_app_head (a b : string) :
  String.substring 0 (String.length a) (a +:+ b) = a.
Proof.
  induction a as [|c a IH]; simpl.
  - by destruct b.
  - by rewrite IH.
Qed.

Lemma substring_app_tail (a b : string) :
  String.substring (String.length a) (String.length b) (a +:+ b) = b.
Proof. induction a as [|c a IH]; simpl; [apply substring_whole | exact IH]. Qed.

Lemma substring_cut (s : string) (n : nat) :
  n ≤ String.length s →
  s = String.substring 0 n s +:+ String.substring n (String.length s - n) s.
Proof.
  revert n; induction s as [|c s IH]; intros [|n] Hn; simpl in *; try lia.
  - done.
  - by rewrite substring_whole.
  - change (String c s =
            String c (String.substring 0 n s +:+
                      String.substring n (String.length s - n) s)).
    f_equal. apply IH. lia.
Qed.


Lemma substring_head_prefix (s p : string) :
  String.length p ≤ String.length s →
  String.substring 0 (String.length p) s = p ↔ hasPrefix s p.
Proof.
  intros Hn; split.
  - intros Hp. eexists. rewrite <- Hp at 1. by apply substring_cut.
  - intros [t ->]. apply substring_app_head.
Qed.

Lemma substring_tail_suffix (s e : string) :
  String.length e ≤ String.length s →
  String.substring (String.length s - String.length e)
    (String.length s - (String.length s - String.length e)) s = e ↔ hasSuffix s e.
Proof.
  intros Hn; split.
  - intros He. eexists. rewrite <- He at 1. apply substring_cut. lia.
  - intros [p ->]. rewrite string_app_length.
    replace (_ + _ - String.length e) with (String.length p) by lia.
    replace (_ + _ - String.length p) with (String.length e) by lia.
    apply substring_app_tail.
Qed.

Lemma hasPrefix_length (s p : string) :
  hasPrefix s p → String.length p ≤ String.length s.
Proof. intros [t ->]. rewrite string_app_length. lia. Qed.

Lemma hasSuffix_length (s e : string) :
  hasSuffix s e → String.length e ≤ String.length s.
Proof. intros [p ->]. rewrite string_app_length. lia. Qed.

End string_facts.

(** ** The monad: how sequencing computes *)

Lemma bind_ret_l {A B} (a : A) (f : A → M B) : (mret a ≫= f) = f a.
Proof. unfold mret, M_ret, mbind, M_bind, ret, bind. by destruct (f a). Qed.


(** ** Slices *)

Lemma sliceTo_in_range (s : string) (hi : Z) :
  0 ≤ hi ≤ len s → sliceTo s hi = mret (String.substring 0 (Z.to_nat hi) s).
Proof.
  intros [H0 H1]. unfold sliceTo.
  apply Z.leb_le in H0, H1. by rewrite H0, H1.
Qed.

Lemma sliceTo_out_of_range (s : string) (hi : Z) :
  len s < hi → sliceTo s hi = ([], inl (PanicSliceBounds hi (len s))).
Proof.
  intros H. unfold sliceTo. apply Z.leb_gt in H. rewrite H.
  by rewrite andb_false_r.
Qed.

Lemma sliceFrom_in_range (s : string) (lo : Z) :
  0 ≤ lo ≤ len s →
  sliceFrom s lo = mret (String.substring (Z.to_nat lo) (String.length s - Z.to_nat lo) s).
Proof.
  intros [H0 H1]. unfold sliceFrom.
  apply Z.leb_le in H0, H1. by rewrite H0, H1.
Qed.

Lemma outcome_bind {A B} (m : M A) (f : A → M B) :
  outcome (m ≫= f) =
  match outcome m with inl h => inl h | inr a => outcome (f a) end.
Proof.
  destruct m as [out [h|a]]; [done|].
  unfold mbind, M_bind, bind, outcome; simpl. by destruct (f a).
Qed.

Lemma stdout_bind {A B} (m : M A) (f : A → M B) :
  stdout (m ≫= f) =
  stdout m ++ match outcome m with inl _ => [] | inr a => stdout (f a) end.
Proof.
  destruct m as [out [h|a]]; unfold mbind, M_bind, bind, stdout, outcome; simpl.
  - by rewrite app_nil_r.
  - by destruct (f a).
Qed.

Lemma exit1_bind_l {B} (m : M unit) (f : unit → M B) :
  outcome m = inl (Exit 1) → outcome (m ≫= f) = inl (Exit 1).
Proof. intros H. by rewrite outcome_bind, H. Qed.

Lemma exit1_bind_r {B} (m : M unit) (f : unit → M B) :
  passOrExit1 m → outcome (f tt) = inl (Exit 1) →
  outcome (m ≫= f) = inl (Exit 1).
Proof. intros [H|H] Hf; rewrite outcome_bind, H; [exact Hf | done]. Qed.

(** ** Step 1: the file name *)

Lemma checkFilename_match (filePath : string) (component : Component) :
  filenameMatches filePath component → checkFilename filePath component = mret tt.
Proof.
  unfold checkFilename. intros [H|H].
  - apply String.eqb_eq in H. by rewrite H.
  - apply String.eqb_eq in H. rewrite H. by rewrite andb_false_r.
Qed.

Lemma checkFilename_mismatch (filePath : string) (component : Component) :
  ¬ filenameMatches filePath component →
  checkFilename filePath component = filenameError filePath component.
Proof.
  unfold checkFilename, filenameMatches. intros H.
  destruct (String.eqb_spec filePath (ID component +:+ ".appdata.xml")); [tauto|].
  destruct (String.eqb_spec filePath (ID component +:+ ".metainfo.xml")); [tauto|].
  reflexivity.
Qed.

Lemma filenameMatches_dec (filePath : string) (component : Component) :
  filenameMatches filePath component ∨ ¬ filenameMatches filePath component.
Proof.
  unfold filenameMatches.
  destruct (String.eqb_spec filePath (ID component +:+ ".appdata.xml")); [tauto|].
  destruct (String.eqb_spec filePath (ID component +:+ ".metainfo.xml")); tauto.
Qed.

Lemma main_filename_mismatch (order : list string) (filePath : string)
    (component : Component) :
  ¬ filenameMatches filePath component →
  main order filePath component = filenameError filePath component.
Proof. intros H. unfold main. by rewrite (checkFilename_mismatch _ _ H). Qed.

Lemma main_filename_match (order : list string) (filePath : string)
    (component : Component) :
  filenameMatches filePath component →
  main order filePath component =
    (checkRequiredFields order component ;;
     checkType component ;;
     checkMetadataLicense component ;;
     checkName component ;;
     checkSummary component ;;
     checkLaunchable component ;;
     checkScreenshots component ;;
     Println "Validation complete.").
Proof.
  intros H. unfold main. rewrite (checkFilename_match _ _ H).
  apply (bind_ret_l tt).
Qed.

Lemma checkFilename_passOrExit1 (filePath : string) (component : Component) :
  passOrExit1 (checkFilename filePath component).
Proof.
  destruct (filenameMatches_dec filePath component) as [H|H].
  - left. by rewrite (checkFilename_match _ _ H).
  - right. by rewrite (checkFilename_mismatch _ _ H).
Qed.

(** ** Step 2: the mandatory fields *)

Lemma rangeMap_requiredBody (order : list string) (m : gmap string string) :
  rangeMap order m requiredBody =
  match firstEmpty order m with
  | Some k => presenceError k
  | None => mret tt
  end.
Proof.
  induction order as [|k rest IH]; simpl; [done|].
  destruct (m !! k) as [v|]; [|exact IH].
  unfold requiredBody. destruct (v =? "")%string; [done|].
  rewrite (bind_ret_l tt). exact IH.
Qed.

Lemma firstEmpty_Some (order : list string) (m : gmap string string) (k : string) :
  firstEmpty order m = Some k → k ∈ order ∧ m !! k = Some "".
Proof.
  induction order as [|k' rest IH]; simpl; [done|].
  destruct (m !! k') as [v|] eqn:Hk.
  - destruct (String.eqb_spec v "") as [->|Hv].
    + intros [= <-]. split; [left | done].
    + intros H. destruct (IH H). split; [by right | done].
  - intros H. destruct (IH H). split; [by right | done].
Qed.

Lemma firstEmpty_None (order : list string) (m : gmap string string) :
  firstEmpty order m = None ↔ ∀ k, k ∈ order → m !! k ≠ Some "".
Proof.
  induction order as [|k' rest IH]; simpl.
  - split; [|done]. intros _ k Hk. by apply not_elem_of_nil in Hk.
  - destruct (m !! k') as [v|] eqn:Hk.
    + destruct (String.eqb_spec v "") as [->|Hv].
      * split; [done|]. intros H. destruct (H k'); [left | done].
      * rewrite IH. split.
        -- intros H k [->|Hin]%elem_of_cons; [congruence | by apply H].
        -- intros H k Hin. apply H. by right.
    + rewrite IH. split.
      * intros H k [->|Hin]%elem_of_cons; [congruence | by apply H].
      * intros H k Hin. apply H. by right.
Qed.

Lemma requiredFields_lookup (component : Component) :
  requiredFields component !! "Type" = Some (Type_ component) ∧
  requiredFields component !! "ID" = Some (ID component) ∧
  requiredFields component !! "Name" = Some (Name component) ∧
  requiredFields component !! "Summary" = Some (Summary component) ∧
  requiredFields component !! "MetadataLicense" = Some (MetadataLicense component) ∧
  requiredFields component !! "ProjectLicense" = Some (ProjectLicense component) ∧
  requiredFields component !! "Description" = Some (Description component) ∧
  requiredFields component !! "LaunchableType"
    = Some (LaunchableType (Launchable_ component)) ∧
  requiredFields component !! "Launchable" = Some (Contents (Launchable_ component)).
Proof. unfold requiredFields. repeat split; by simplify_map_eq. Qed.

Lemma requiredFields_is_Some (component : Component) (k : string) :
  is_Some (requiredFields component !! k) ↔ k ∈ fieldNames.
Proof.
  rewrite <- elem_of_dom. unfold requiredFields, fieldNames.
  rewrite !dom_insert_L, dom_empty_L. set_solver.
Qed.

Lemma requiredFields_keys (component : Component) :
  (map_to_list (requiredFields component)).*1 ≡ₚ fieldNames.
Proof.
  apply NoDup_Permutation.
  - apply NoDup_fst_map_to_list.
  - apply (bool_decide_unpack _). by vm_compute.
  - intros k. rewrite <- requiredFields_is_Some. rewrite list_elem_of_fmap. split.
    + intros [[k' v] [-> Hin]]. apply elem_of_map_to_list in Hin. by exists v.
    + intros [v Hv]. exists (k, v). split; [done|]. by apply elem_of_map_to_list.
Qed.

Lemma iterationOrder_fieldNames (component : Component) (order : list string) :
  iterationOrder (requiredFields component) order ↔ order ≡ₚ fieldNames.
Proof.
  unfold iterationOrder. by rewrite requiredFields_keys.
Qed.

Lemma requiredFields_empty (component : Component) :
  (∃ k, requiredFields component !! k = Some "") ↔ someAbsent component.
Proof.
  destruct (requiredFields_lookup component)
    as (H1 & H2 & H3 & H4 & H5 & H6 & H7 & H8 & H9).
  unfold someAbsent. split.
  - intros [k Hk].
    assert (k ∈ fieldNames) as Hin
      by (apply (requiredFields_is_Some component); by exists "").
    unfold fieldNames in Hin. rewrite !elem_of_cons, elem_of_nil in Hin.
    destruct Hin as [->|[->|[->|[->|[->|[->|[->|[->|[->|[]]]]]]]]]];
      rewrite Hk in *; naive_solver.
  - intros [H|[H|[H|[H|[H|[H|[H|[H|H]]]]]]]]; rewrite H in *; eauto.
Qed.

Lemma allPresent_not_someAbsent (component : Component) :
  allPresent component ↔ ¬ someAbsent component.
Proof.
  unfold allPresent, someAbsent. split; [tauto|].
  intros H. repeat split; intros E; apply H; tauto.
Qed.

Lemma someAbsent_dec (component : Component) :
  someAbsent component ∨ allPresent component.
Proof.
  unfold someAbsent, allPresent.
  destruct (String.eqb_spec (Type_ component) ""); [tauto|].
  destruct (String.eqb_spec (ID component) ""); [tauto|].
  destruct (String.eqb_spec (Name component) ""); [tauto|].
  destruct (String.eqb_spec (Summary component) ""); [tauto|].
  destruct (String.eqb_spec (MetadataLicense component) ""); [tauto|].
  destruct (String.eqb_spec (ProjectLicense component) ""); [tauto|].
  destruct (String.eqb_spec (Description component) ""); [tauto|].
  destruct (String.eqb_spec (LaunchableType (Launchable_ component)) ""); [tauto|].
  destruct (String.eqb_spec (Contents (Launchable_ component)) ""); tauto.
Qed.

Lemma checkRequiredFields_allPresent (order : list string) (component : Component) :
  allPresent component → checkRequiredFields order component = mret tt.
Proof.
  intros Hall. unfold checkRequiredFields. rewrite rangeMap_requiredBody.
  replace (firstEmpty order (requiredFields component)) with (@None string); [done|].
  symmetry. apply firstEmpty_None. intros k _ Hk.
  apply allPresent_not_someAbsent in Hall. apply Hall.
  apply requiredFields_empty. by exists k.
Qed.

Lemma checkRequiredFields_someAbsent (order : list string) (component : Component) :
  iterationOrder (requiredFields component) order →
  someAbsent component →
  ∃ field, field ∈ fieldNames ∧ requiredFields component !! field = Some "" ∧
           checkRequiredFields order component = presenceError field.
Proof.
  intros Hord [k Hk]%requiredFields_empty.
  apply iterationOrder_fieldNames in Hord.
  unfold checkRequiredFields. rewrite rangeMap_requiredBody.
  destruct (firstEmpty order (requiredFields component)) as [field|] eqn:Hfirst.
  - apply firstEmpty_Some in Hfirst as [Hin Hempty].
    exists field. rewrite <- Hord. done.
  - exfalso. eapply firstEmpty_None; [exact Hfirst | | exact Hk].
    rewrite Hord. apply (requiredFields_is_Some component). by exists "".
Qed.

Lemma checkRequiredFields_passOrExit1 (order : list string) (component : Component) :
  passOrExit1 (checkRequiredFields order component).
Proof.
  unfold checkRequiredFields. rewrite rangeMap_requiredBody.
  destruct (firstEmpty _ _); [by right | by left].
Qed.

(** ** Steps 3 to 7 *)

Lemma checkType_allowed (component : Component) :
  typeAllowed component → checkType component = mret tt.
Proof.
  unfold checkType. intros [H|H]; apply String.eqb_eq in H; rewrite H;
    [done | by rewrite andb_false_r].
Qed.

Lemma checkType_not_allowed (component : Component) :
  ¬ typeAllowed component → checkType component = typeError.
Proof.
  unfold checkType, typeAllowed. intros H.
  destruct (String.eqb_spec (Type_ component) "desktop-application"); [tauto|].
  destruct (String.eqb_spec (Type_ component) "desktop"); [tauto|].
  reflexivity.
Qed.

Lemma typeAllowed_dec (component : Component) :
  typeAllowed component ∨ ¬ typeAllowed component.
Proof.
  unfold typeAllowed.
  destruct (String.eqb_spec (Type_ component) "desktop-application"); [tauto|].
  destruct (String.eqb_spec (Type_ component) "desktop"); tauto.
Qed.

Lemma checkType_passOrExit1 (component : Component) :
  passOrExit1 (checkType component).
Proof.
  destruct (typeAllowed_dec component) as [H|H].
  - left. by rewrite (checkType_allowed _ H).
  - right. by rewrite (checkType_not_allowed _ H).
Qed.

Lemma licenseAllowed_elem_of (license : string) (licenses : list string) :
  licenseAllowed license licenses = true ↔ license ∈ licenses.
Proof.
  induction licenses as [|l rest IH]; simpl.
  - split; [done | by intros ?%elem_of_nil].
  - rewrite elem_of_cons. destruct (String.eqb_spec license l) as [->|Hne].
    + tauto.
    + rewrite IH. tauto.
Qed.

Lemma checkMetadataLicense_allowed (component : Component) :
  MetadataLicense component ∈ allowedLicenses →
  checkMetadataLicense component = mret tt.
Proof.
  intros H%licenseAllowed_elem_of. unfold checkMetadataLicense. by rewrite H.
Qed.

Lemma checkMetadataLicense_not_allowed (component : Component) :
  MetadataLicense component ∉ allowedLicenses →
  checkMetadataLicense component = (licenseWarning component, inr tt).
Proof.
  intros H. unfold checkMetadataLicense.
  destruct (licenseAllowed _ _) eqn:E; [by apply licenseAllowed_elem_of in E|].
  reflexivity.
Qed.

Lemma checkMetadataLicense_outcome (component : Component) :
  outcome (checkMetadataLicense component) = inr tt.
Proof.
  unfold checkMetadataLicense. by destruct (licenseAllowed _ _).
Qed.

Lemma checkName_long (component : Component) :
  2 ≤ len (Name component) → checkName component = mret tt.
Proof. intros H. unfold checkName. apply Z.ltb_ge in H. by rewrite H. Qed.

Lemma checkName_short (component : Component) :
  len (Name component) < 2 → checkName component = nameError.
Proof. intros H. unfold checkName. apply Z.ltb_lt in H. by rewrite H. Qed.

Lemma checkName_passOrExit1 (component : Component) :
  passOrExit1 (checkName component).
Proof. unfold checkName. destruct (_ <? _); [by right | by left]. Qed.

Lemma checkSummary_long (component : Component) :
  10 ≤ len (Summary component) → checkSummary component = mret tt.
Proof. intros H. unfold checkSummary. apply Z.ltb_ge in H. by rewrite H. Qed.

Lemma checkSummary_short (component : Component) :
  len (Summary component) < 10 → checkSummary component = summaryError.
Proof. intros H. unfold checkSummary. apply Z.ltb_lt in H. by rewrite H. Qed.

Lemma checkSummary_passOrExit1 (component : Component) :
  passOrExit1 (checkSummary component).
Proof. unfold checkSummary. destruct (_ <? _); [by right | by left]. Qed.

Lemma checkLaunchable_desktop_id (component : Component) :
  LaunchableType (Launchable_ component) = "desktop-id" →
  checkLaunchable component = mret tt.
Proof. intros H. unfold checkLaunchable. by rewrite H. Qed.

Lemma checkLaunchable_other (component : Component) :
  LaunchableType (Launchable_ component) ≠ "desktop-id" →
  checkLaunchable component = launchableError component.
Proof.
  intros H. unfold checkLaunchable.
  by destruct (String.eqb_spec (LaunchableType (Launchable_ component)) "desktop-id").
Qed.

(** ** Step 9: the screenshots *)

Lemma len_nonneg (s : string) : 0 ≤ len s.
Proof. unfold len. lia. Qed.

Lemma hasPrefix_len (s p : string) : hasPrefix s p → len p ≤ len s.
Proof. intros H%hasPrefix_length. unfold len. lia. Qed.

Lemma hasSuffix_len (s e : string) : hasSuffix s e → len e ≤ len s.
Proof. intros H%hasSuffix_length. unfold len. lia. Qed.

(** Every way the condition of line 191 can go. *)
Lemma badPrefix_cases (source : string) :
  (len source < 7 ∧ badPrefix source = mret true) ∨
  (hasPrefix source "http://" ∧ badPrefix source = mret false) ∨
  (len source = 7 ∧ source ≠ "http://" ∧
     badPrefix source = ([], inl (PanicSliceBounds 8 7))) ∨
  (8 ≤ len source ∧ ¬ hasPrefix source "http://" ∧ hasPrefix source "https://" ∧
     badPrefix source = mret false) ∨
  (8 ≤ len source ∧ ¬ httpPrefix source ∧ badPrefix source = mret true).
Proof.
  unfold badPrefix, httpPrefix.
  destruct (len source <? 7) eqn:Hlt.
  { left. apply Z.ltb_lt in Hlt. done. }
  apply Z.ltb_ge in Hlt. right.
  rewrite (sliceTo_in_range source 7) by lia. rewrite bind_ret_l.
  assert (String.substring 0 (Z.to_nat 7) source = "http://"
          ↔ hasPrefix source "http://") as Hhttp.
  { apply (substring_head_prefix source "http://"). unfold len in Hlt. simpl. lia. }
  destruct (String.eqb_spec (String.substring 0 (Z.to_nat 7) source) "http://")
    as [E7|N7]; simpl.
  { left. split; [by apply Hhttp | done]. }
  right. rewrite Hhttp in N7.
  destruct (Z.eq_dec (len source) 7) as [H7|H7].
  - left. split; [done|]. split.
    + intros ->. apply N7. by exists "".
    + rewrite (sliceTo_out_of_range source 8) by lia. by rewrite H7.
  - right. rewrite (sliceTo_in_range source 8) by lia. rewrite bind_ret_l.
    assert (String.substring 0 (Z.to_nat 8) source = "https://"
            ↔ hasPrefix source "https://") as Hhttps.
    { apply (substring_head_prefix source "https://"). unfold len in *. simpl. lia. }
    destruct (String.eqb_spec (String.substring 0 (Z.to_nat 8) source) "https://")
      as [E8|N8]; simpl.
    + left. repeat split; [lia | done | by apply Hhttps].
    + right. rewrite Hhttps in N8. split; [lia|]. split; [tauto | done].
Qed.

Lemma checkSourcePrefix_http (source : string) :
  httpPrefix source → checkSourcePrefix source = mret tt.
Proof.
  intros Hp. unfold checkSourcePrefix.
  destruct (badPrefix_cases source)
    as [[Hl E]|[[Hh E]|[(Hl & Hn & E)|[(Hl & Hn & Hs & E)|(Hl & Hn & E)]]]];
    rewrite E; try done.
  - destruct Hp as [Hp|Hp]; apply hasPrefix_len in Hp; unfold len in *;
      simpl in Hp; lia.
  - destruct Hp as [Hp|Hp].
    + destruct Hp as [t ->]. destruct Hn. unfold len in Hl.
      rewrite string_app_length in Hl. simpl in Hl.
      destruct t; [done | simpl in Hl; lia].
    + apply hasPrefix_len in Hp. unfold len in *; simpl in Hp; lia.
Qed.

Lemma checkSourcePrefix_pass (source : string) :
  checkSourcePrefix source = mret tt → httpPrefix source ∧ 7 ≤ len source.
Proof.
  unfold checkSourcePrefix.
  destruct (badPrefix_cases source)
    as [[Hl E]|[[Hh E]|[(Hl & Hn & E)|[(Hl & Hn & Hs & E)|(Hl & Hn & E)]]]];
    rewrite E; try done; intros _.
  - split; [by left|]. apply hasPrefix_len in Hh. unfold len in *. simpl in Hh. lia.
  - split; [by right | lia].
Qed.

Lemma checkSourcePrefix_short (source : string) :
  len source < 7 → checkSourcePrefix source = prefixError.
Proof.
  intros Hl. unfold checkSourcePrefix, badPrefix.
  apply Z.ltb_lt in Hl. by rewrite Hl.
Qed.

Lemma checkSourcePrefix_long_other (source : string) :
  8 ≤ len source → ¬ httpPrefix source → checkSourcePrefix source = prefixError.
Proof.
  intros H8 Hn. unfold checkSourcePrefix.
  destruct (badPrefix_cases source)
    as [[Hl E]|[[Hh E]|[(Hl & Hn' & E)|[(Hl & Hn' & Hs & E)|(Hl & Hn' & E)]]]];
    rewrite E; try done; try lia.
  - destruct Hn. by left.
  - destruct Hn. by right.
Qed.

(** The slice of line 191 that is not guarded: a source of exactly seven
    bytes other than "http://" makes [Source[:8]] panic. *)
Lemma checkSourcePrefix_panics (source : string) :
  checkSourcePrefix source = ([], inl (PanicSliceBounds 8 7))
  ↔ len source = 7 ∧ source ≠ "http://".
Proof.
  unfold checkSourcePrefix.
  destruct (badPrefix_cases source)
    as [[Hl E]|[[Hh E]|[(Hl & Hn & E)|[(Hl & Hn & Hs & E)|(Hl & Hn & E)]]]];
    rewrite E; split; try done; try (intros [? ?]; lia).
  intros [H7 Hne]. destruct Hh as [t ->]. destruct Hne.
  unfold len in H7. rewrite string_app_length in H7. simpl in H7.
  destruct t; [done | simpl in H7; lia].
Qed.

(** One turn of the loop of lines 198-203: the guard [len(Source) > len(ext)]
    keeps the slice inside the string, so the test itself never panics. *)
Lemma extension_test (source ext : string) :
  ∃ hit : bool,
    (if len source >? len ext
     then tail ← sliceFrom source (len source - len ext);
          mret (tail =? ext)%string
     else mret false) = mret hit
    ∧ (hit = true ↔ len ext < len source ∧ hasSuffix source ext).
Proof.
  destruct (len source >? len ext) eqn:Hgt.
  - apply Z.gtb_lt in Hgt.
    rewrite sliceFrom_in_range by (pose proof (len_nonneg ext); lia).
    rewrite bind_ret_l. eexists; split; [reflexivity|].
    assert (Z.to_nat (len source - len ext)
            = (String.length source - String.length ext)%nat) as ->
      by (unfold len; lia).
    rewrite String.eqb_eq.
    rewrite substring_tail_suffix by (unfold len in Hgt; lia).
    tauto.
  - exists false. split; [done|]. split; [done|].
    intros [Hlt _]. apply Z.gtb_lt in Hlt. congruence.
Qed.

(** The loop never panics, whatever the source and the candidates, and
    finds a candidate exactly when a strictly shorter one is a suffix. *)
Lemma hasValidExtension_spec (source : string) (exts : list string) :
  ∃ valid : bool,
    hasValidExtension source exts = mret valid
    ∧ (valid = true ↔ ∃ ext, ext ∈ exts ∧ len ext < len source ∧ hasSuffix source ext).
Proof.
  induction exts as [|ext rest IH]; simpl.
  - exists false. split; [done|]. split; [done|].
    by intros (ext & Hin%elem_of_nil & _).
  - destruct (extension_test source ext) as (hit & -> & Hhit).
    rewrite bind_ret_l. destruct hit.
    + exists true. split; [done|]. split; [|done]. intros _.
      exists ext. split; [left | by apply Hhit].
    + destruct IH as (valid & -> & Hvalid). exists valid. split; [done|].
      rewrite Hvalid. split.
      * intros (e & Hin & He). exists e. split; [by right | done].
      * intros (e & [->|Hin]%elem_of_cons & He).
        -- apply Hhit in He. done.
        -- by exists e.
Qed.

Lemma imageSuffix_validExtensions (source : string) :
  7 ≤ len source →
  (∃ ext, ext ∈ validExtensions ∧ len ext < len source ∧ hasSuffix source ext)
  ↔ imageSuffix source.
Proof.
  intros H7. unfold validExtensions, imageSuffix. split.
  - intros (ext & Hin & _ & Hs).
    rewrite !elem_of_cons, elem_of_nil in Hin.
    destruct Hin as [->|[->|[->|[]]]]; tauto.
  - unfold len in H7.
    intros [H|[H|H]];
      [exists ".png" | exists ".jpg" | exists ".jpeg"];
      (split; [unfold validExtensions; rewrite !elem_of_cons; auto
              | split; [unfold len; simpl; lia | exact H]]).
Qed.

Lemma checkSourceExtension_valid (source : string) :
  7 ≤ len source → imageSuffix source → checkSourceExtension source = mret tt.
Proof.
  intros H7 Hs. unfold checkSourceExtension.
  destruct (hasValidExtension_spec source validExtensions) as (valid & -> & Hvalid).
  rewrite bind_ret_l. rewrite (imageSuffix_validExtensions _ H7) in Hvalid.
  apply Hvalid in Hs as ->. done.
Qed.

Lemma checkSourceExtension_invalid (source : string) :
  7 ≤ len source → ¬ imageSuffix source →
  checkSourceExtension source = extensionError source.
Proof.
  intros H7 Hs. unfold checkSourceExtension.
  destruct (hasValidExtension_spec source validExtensions) as (valid & -> & Hvalid).
  rewrite bind_ret_l. rewrite (imageSuffix_validExtensions _ H7) in Hvalid.
  destruct valid; [destruct Hs; by apply Hvalid|].
  rewrite sliceFrom_in_range by lia.
  unfold extensionError, lastBytes.
  assert (Z.to_nat (len source - 4) = (String.length source - 4)%nat) as ->
    by (unfold len; lia).
  assert ((String.length source - (String.length source - 4))%nat = 4%nat) as ->
    by (unfold len in H7; lia).
  reflexivity.
Qed.

Lemma checkImageType_ok (image : Image) :
  ImageType image = "source" ∨ ImageType image = "video" ∨ ImageType image = "" →
  checkImageType image = mret tt.
Proof.
  unfold checkImageType. intros [H|[H|H]]; rewrite H; done.
Qed.

Lemma checkImageType_other (image : Image) :
  ImageType image ≠ "source" → ImageType image ≠ "video" → ImageType image ≠ "" →
  checkImageType image = imageTypeError.
Proof.
  unfold checkImageType. intros H1 H2 H3.
  destruct (String.eqb_spec (ImageType image) "source"); [done|].
  destruct (String.eqb_spec (ImageType image) "video"); [done|].
  destruct (String.eqb_spec (ImageType image) ""); done.
Qed.

Lemma checkScreenshot_ok (screenshot : Screenshot) :
  screenshotOk screenshot → checkScreenshot screenshot = mret tt.
Proof.
  intros [Hty Hsrc]. unfold checkScreenshot.
  rewrite (checkImageType_ok _ Hty). rewrite (bind_ret_l tt).
  destruct (String.eqb_spec (ImageType (ScreenshotImage screenshot)) "source")
    as [E|N]; [|done].
  destruct (Hsrc E) as [Hp Hs].
  rewrite (checkSourcePrefix_http _ Hp). rewrite (bind_ret_l tt).
  apply checkSourceExtension_valid; [|done].
  apply checkSourcePrefix_pass. by apply checkSourcePrefix_http.
Qed.

Lemma rangeScreenshots_ok (screenshots : list Screenshot) :
  Forall screenshotOk screenshots → rangeScreenshots screenshots = mret tt.
Proof.
  induction 1 as [|screenshot rest Hok _ IH]; simpl; [done|].
  rewrite (checkScreenshot_ok _ Hok). by rewrite (bind_ret_l tt).
Qed.

Lemma checkScreenshots_empty (component : Component) :
  Screenshots component = [] →
  checkScreenshots component = Println "Warning: No screenshots tag found".
Proof. intros H. unfold checkScreenshots. by rewrite H. Qed.

Lemma checkScreenshots_nonempty (component : Component) :
  Screenshots component ≠ [] →
  checkScreenshots component = rangeScreenshots (Screenshots component).
Proof.
  intros H. unfold checkScreenshots.
  destruct (Screenshots component) as [|screenshot rest]; [done|].
  replace (Z.of_nat (length (screenshot :: rest)) =? 0) with false
    by (symmetry; apply Z.eqb_neq; simpl; lia).
  apply (bind_ret_l tt).
Qed.

(** ** What a run can print *)

Section prints.
Context (P : string → Prop).

Lemma prints_ret {A} (a : A) : prints P (mret a : M A).
Proof. intros line Hin. by apply elem_of_nil in Hin. Qed.

Lemma prints_halt {A} (h : halt) : prints P (([], inl h) : M A).
Proof. intros line Hin. by apply elem_of_nil in Hin. Qed.

Lemma prints_Println (line : string) : P line → prints P (Println line).
Proof.
  intros HP l Hin. unfold Println, stdout in Hin; simpl in Hin.
  apply list_elem_of_singleton in Hin as ->. done.
Qed.

Lemma prints_bind {A B} (m : M A) (f : A → M B) :
  prints P m → (∀ a, prints P (f a)) → prints P (m ≫= f).
Proof.
  intros Hm Hf line. rewrite stdout_bind, elem_of_app. intros [Hin|Hin].
  - by apply Hm.
  - destruct (outcome m) as [h|a]; [by apply elem_of_nil in Hin|].
    by apply (Hf a).
Qed.

Lemma prints_sliceTo (s : string) (hi : Z) : prints P (sliceTo s hi).
Proof. unfold sliceTo. destruct (_ && _); [apply prints_ret | apply prints_halt]. Qed.

Lemma prints_sliceFrom (s : string) (lo : Z) : prints P (sliceFrom s lo).
Proof. unfold sliceFrom. destruct (_ && _); [apply prints_ret | apply prints_halt]. Qed.

Lemma prints_hasValidExtension (source : string) (exts : list string) :
  prints P (hasValidExtension source exts).
Proof.
  destruct (hasValidExtension_spec source exts) as (valid & -> & _).
  apply prints_ret.
Qed.

End prints.

Ltac print_step :=
  first
    [ apply prints_ret
    | apply prints_halt
    | apply prints_Println; discriminate
    | apply prints_sliceTo
    | apply prints_sliceFrom
    | apply prints_hasValidExtension
    | apply prints_bind; [|intros ?] ].

Lemma checkRequiredFields_prints (order : list string) (component : Component) :
  prints (λ line, line ≠ deadLine) (checkRequiredFields order component).
Proof.
  unfold checkRequiredFields. rewrite rangeMap_requiredBody.
  destruct (firstEmpty _ _) as [k|] eqn:Hfirst; [|apply prints_ret].
  apply firstEmpty_Some in Hfirst as [_ Hk].
  assert (k ∈ fieldNames) as Hin
    by (apply (requiredFields_is_Some component); by exists "").
  unfold fieldNames in Hin. rewrite !elem_of_cons, elem_of_nil in Hin.
  intros line Hline. unfold presenceError, stdout in Hline; simpl in Hline.
  apply list_elem_of_singleton in Hline as ->.
  destruct Hin as [->|[->|[->|[->|[->|[->|[->|[->|[->|[]]]]]]]]]]; discriminate.
Qed.

Lemma checkScreenshot_prints (screenshot : Screenshot) :
  prints (λ line, line ≠ deadLine) (checkScreenshot screenshot).
Proof.
  unfold checkScreenshot, checkImageType, checkSourcePrefix, badPrefix,
    checkSourceExtension.
  apply prints_bind; [destruct (_ && _); repeat print_step|]. intros _.
  destruct (_ =? _)%string; [|print_step].
  apply prints_bind; [|intros _].
  - apply prints_bind; [|intros [|]; repeat print_step].
    destruct (_ <? _); [print_step|].
    apply prints_bind; [print_step|]. intros p7.
    destruct (negb _); repeat print_step.
  - apply prints_bind; [print_step|]. intros [|]; repeat print_step.
Qed.

Lemma rangeScreenshots_prints (screenshots : list Screenshot) :
  prints (λ line, line ≠ deadLine) (rangeScreenshots screenshots).
Proof.
  induction screenshots as [|screenshot rest IH]; simpl; [print_step|].
  apply prints_bind; [apply checkScreenshot_prints | intros _; exact IH].
Qed.

(** The test of line 177 repeats the one of line 174 inside its [else]:
    it is false whenever it is reached. *)
Lemma checkScreenshots_prints (component : Component) :
  prints (λ line, line ≠ deadLine) (checkScreenshots component).
Proof.
  unfold checkScreenshots.
  destruct (Z.of_nat (length (Screenshots component)) =? 0); [print_step|].
  apply prints_bind; [print_step | intros _; apply rangeScreenshots_prints].
Qed.

Lemma main_prints (order : list string) (filePath : string) (component : Component) :
  prints (λ line, line ≠ deadLine) (main order filePath component).
Proof.
  unfold main.
  apply prints_bind; [|intros _].
  { unfold checkFilename. destruct (_ && _); repeat print_step. }
  apply prints_bind; [apply checkRequiredFields_prints | intros _].
  apply prints_bind; [|intros _].
  { unfold checkType. destruct (_ && _); repeat print_step. }
  apply prints_bind; [|intros _].
  { unfold checkMetadataLicense. destruct (negb _); repeat print_step. }
  apply prints_bind; [|intros _].
  { unfold checkName. destruct (_ <? _); repeat print_step. }
  apply prints_bind; [|intros _].
  { unfold checkSummary. destruct (_ <? _); repeat print_step. }
  apply prints_bind; [|intros _].
  { unfold checkLaunchable. destruct (negb _); repeat print_step. }
  apply prints_bind; [apply checkScreenshots_prints | intros _].
  print_step.
Qed.

(** * The claims *)

(** ** C1: the prefix check on short sources *)

(** C1. The specification asks that the prefix check of a "source" image
    never reads out of bounds and rejects every bad source with the prefix
    Error.
    The code guards [len(Source) < 7] but then takes [Source[:8]]: on the
    seven-byte source "ftp://x" the check panics (slice bounds out of range
    [:8] with length 7), and so does the whole run, with exit status 2 and
    no prefix Error printed. *)
Theorem C1_seven_byte_source_panics :
  len "ftp://x" = 7 ∧
  checkSourcePrefix "ftp://x" = ([], inl (PanicSliceBounds 8 7)) ∧
  main fieldNames "org.example.Editor.metainfo.xml" sevenByteSourceDocument
    = ([], inl (PanicSliceBounds 8 7)) ∧
  exitStatus
    (main fieldNames "org.example.Editor.metainfo.xml" sevenByteSourceDocument) = 2.
Proof. repeat split; by vm_compute. Qed.

(** Where the prefix check does behave as C1 says: every source shorter
    than seven bytes, and every source of eight bytes or more without one
    of the two prefixes, gets the prefix Error and exit status 1. *)
Lemma prefix_check_rejects_without_panic (source : string) :
  len source ≠ 7 → ¬ httpPrefix source → checkSourcePrefix source = prefixError.
Proof.
  intros H7 Hn. destruct (Z_lt_le_dec (len source) 7) as [Hl|Hl].
  - by apply checkSourcePrefix_short.
  - apply checkSourcePrefix_long_other; [lia | done].
Qed.

(** ** C2: an empty id *)

(** C2, as stated, fails: with an empty id the file name ".appdata.xml"
    equals id+".appdata.xml", so step 1 passes. *)
Lemma C2_counterexample :
  ID emptyIdDocument = "" ∧
  checkFilename ".appdata.xml" emptyIdDocument = mret tt ∧
  checkFilename ".appdata.xml" emptyIdDocument
    ≠ filenameError ".appdata.xml" emptyIdDocument.
Proof. repeat split; by vm_compute. Qed.

(** C2 (amended). For a document whose id is empty, step 1 fails with the
    filename Error exactly when the file name is neither ".appdata.xml" nor
    ".metainfo.xml"; for these two names step 1 passes and the run is
    stopped by step 2 with a presence Error for an empty field. *)
Theorem C2_empty_id (order : list string) (filePath : string) (component : Component)
    (Hid : ID component = "")
    (Horder : iterationOrder (requiredFields component) order) :
  (checkFilename filePath component = filenameError filePath component
   ↔ filePath ≠ ".appdata.xml" ∧ filePath ≠ ".metainfo.xml") ∧
  (filePath ≠ ".appdata.xml" ∧ filePath ≠ ".metainfo.xml" →
   main order filePath component = filenameError filePath component) ∧
  (filePath = ".appdata.xml" ∨ filePath = ".metainfo.xml" →
   checkFilename filePath component = mret tt ∧
   ∃ field, requiredFields component !! field = Some "" ∧
            main order filePath component = presenceError field).
Proof.
  assert (filenameMatches filePath component
          ↔ filePath = ".appdata.xml" ∨ filePath = ".metainfo.xml") as Hm
    by (unfold filenameMatches; by rewrite Hid).
  split; [|split].
  - split.
    + intros E. destruct (filenameMatches_dec filePath component) as [H|H].
      * rewrite (checkFilename_match _ _ H) in E. discriminate E.
      * rewrite Hm in H. tauto.
    + intros H. apply checkFilename_mismatch. rewrite Hm. tauto.
  - intros H. apply main_filename_mismatch. rewrite Hm. tauto.
  - intros H%Hm. split; [by apply checkFilename_match|].
    destruct (checkRequiredFields_someAbsent order component Horder)
      as (field & _ & Hempty & E).
    { right. by left. }
    exists field. split; [done|].
    rewrite (main_filename_match _ _ _ H), E. done.
Qed.

Lemma C2_empty_id_witness :
  ID emptyIdDocument = "" ∧
  iterationOrder (requiredFields emptyIdDocument) fieldNames ∧
  checkFilename ".metainfo.xml" emptyIdDocument = mret tt ∧
  ∃ field, requiredFields emptyIdDocument !! field = Some "" ∧
           main fieldNames ".metainfo.xml" emptyIdDocument = presenceError field.
Proof.
  assert (iterationOrder (requiredFields emptyIdDocument) fieldNames) as Horder
    by (by apply iterationOrder_fieldNames).
  split; [reflexivity|]. split; [exact Horder|].
  apply (C2_empty_id fieldNames ".metainfo.xml" emptyIdDocument eq_refl Horder).
  right. reflexivity.
Defined.

(** ** C3: the file name and the id *)

(** C3. Step 1 rejects, with the filename Error, exactly when the file name
    differs from both id+".appdata.xml" and id+".metainfo.xml"; the whole
    run then ends with that Error. If the name equals either, step 1
    passes. *)
Theorem C3_filename_correlation (order : list string) (filePath : string)
    (component : Component) :
  (checkFilename filePath component = filenameError filePath component
   ↔ filePath ≠ ID component +:+ ".appdata.xml"
     ∧ filePath ≠ ID component +:+ ".metainfo.xml") ∧
  (filePath ≠ ID component +:+ ".appdata.xml"
   ∧ filePath ≠ ID component +:+ ".metainfo.xml" →
   main order filePath component = filenameError filePath component) ∧
  (filePath = ID component +:+ ".appdata.xml"
   ∨ filePath = ID component +:+ ".metainfo.xml" →
   checkFilename filePath component = mret tt).
Proof.
  split; [|split].
  - split.
    + intros E. destruct (filenameMatches_dec filePath component) as [H|H].
      * rewrite (checkFilename_match _ _ H) in E. discriminate E.
      * unfold filenameMatches in H. tauto.
    + intros H. apply checkFilename_mismatch. unfold filenameMatches. tauto.
  - intros H. apply main_filename_mismatch. unfold filenameMatches. tauto.
  - apply checkFilename_match.
Qed.

Lemma C3_filename_correlation_witness :
  main fieldNames "editor.xml" minimalDocument
    = filenameError "editor.xml" minimalDocument ∧
  checkFilename "org.example.Editor.appdata.xml" minimalDocument = mret tt ∧
  checkFilename "org.example.Editor.metainfo.xml" minimalDocument = mret tt.
Proof.
  split; [|split].
  - apply (C3_filename_correlation fieldNames "editor.xml" minimalDocument).
    split; discriminate.
  - apply (C3_filename_correlation fieldNames "org.example.Editor.appdata.xml"
             minimalDocument).
    left; reflexivity.
  - apply (C3_filename_correlation fieldNames "org.example.Editor.metainfo.xml"
             minimalDocument).
    right; reflexivity.
Defined.

(** ** C4: the nine mandatory fields *)

Lemma checkFilename_pass_matches (filePath : string) (component : Component) :
  checkFilename filePath component = mret tt → filenameMatches filePath component.
Proof.
  intros E. destruct (filenameMatches_dec filePath component) as [H|H]; [done|].
  rewrite (checkFilename_mismatch _ _ H) in E. discriminate E.
Qed.

(** C4. Once step 1 has passed: if one of the nine mandatory fields is empty
    the run ends with a presence Error that names an empty field, and if
    all nine are non-empty step 2 passes. *)
Theorem C4_presence (order : list string) (filePath : string) (component : Component)
    (Hstep1 : checkFilename filePath component = mret tt)
    (Horder : iterationOrder (requiredFields component) order) :
  (Type_ component = "" ∨ ID component = "" ∨ Name component = "" ∨
   Summary component = "" ∨ MetadataLicense component = "" ∨
   ProjectLicense component = "" ∨ Description component = "" ∨
   LaunchableType (Launchable_ component) = "" ∨
   Contents (Launchable_ component) = "" →
   ∃ field, field ∈ fieldNames ∧ requiredFields component !! field = Some "" ∧
            main order filePath component = presenceError field) ∧
  (Type_ component ≠ "" ∧ ID component ≠ "" ∧ Name component ≠ "" ∧
   Summary component ≠ "" ∧ MetadataLicense component ≠ "" ∧
   ProjectLicense component ≠ "" ∧ Description component ≠ "" ∧
   LaunchableType (Launchable_ component) ≠ "" ∧
   Contents (Launchable_ component) ≠ "" →
   checkRequiredFields order component = mret tt).
Proof.
  apply checkFilename_pass_matches in Hstep1. split.
  - intros Habsent.
    destruct (checkRequiredFields_someAbsent order component Horder Habsent)
      as (field & Hin & Hempty & E).
    exists field. split; [done|]. split; [done|].
    rewrite (main_filename_match _ _ _ Hstep1), E. done.
  - apply checkRequiredFields_allPresent.
Qed.

Lemma C4_presence_witness :
  checkFilename "org.example.Editor.metainfo.xml" noSummaryDocument = mret tt ∧
  iterationOrder (requiredFields noSummaryDocument) fieldNames ∧
  (∃ field, field ∈ fieldNames ∧
            requiredFields noSummaryDocument !! field = Some "" ∧
            main fieldNames "org.example.Editor.metainfo.xml" noSummaryDocument
              = presenceError field) ∧
  checkRequiredFields fieldNames minimalDocument = mret tt.
Proof.
  assert (∀ c, iterationOrder (requiredFields c) fieldNames) as Horder
    by (intros c; by apply iterationOrder_fieldNames).
  split; [reflexivity|]. split; [apply Horder|]. split.
  - apply (C4_presence fieldNames "org.example.Editor.metainfo.xml"
             noSummaryDocument eq_refl (Horder _)).
    do 3 right. left. reflexivity.
  - apply (C4_presence fieldNames "org.example.Editor.metainfo.xml"
             minimalDocument eq_refl (Horder _)).
    repeat split; discriminate.
Defined.

(** ** C5: the two advisory findings *)

(** C5. A document that satisfies the mandatory rules is accepted: the run
    prints the warnings that apply (the three lines of the licence warning,
    once, when the metadata licence is not in the allow-list; the
    no-screenshots warning when there is no screenshot, and then nothing
    from the screenshot loop), then "Validation complete.", and returns
    with exit status 0. *)
Theorem C5_advisories_keep_the_verdict (order : list string) (filePath : string)
    (component : Component) (Hrules : mandatoryRules filePath component) :
  main order filePath component
    = (advisories component ++ ["Validation complete."], inr tt) ∧
  exitStatus (main order filePath component) = 0.
Proof.
  destruct Hrules as (Hfile & Hpresent & Htype & Hname & Hsummary & Hlaunch & Hshots).
  assert (main order filePath component
          = (advisories component ++ ["Validation complete."], inr tt)) as E.
  { rewrite (main_filename_match _ _ _ Hfile).
    rewrite (checkRequiredFields_allPresent _ _ Hpresent), (bind_ret_l tt).
    rewrite (checkType_allowed _ Htype), (bind_ret_l tt).
    rewrite (checkName_long _ Hname), (checkSummary_long _ Hsummary).
    rewrite (checkLaunchable_desktop_id _ Hlaunch).
    unfold advisories.
    assert (checkScreenshots component
            = (match Screenshots component with
               | [] => ["Warning: No screenshots tag found"]
               | _ :: _ => []
               end, inr tt)) as ->.
    { destruct (Screenshots component) as [|screenshot rest] eqn:Hs.
      - by rewrite (checkScreenshots_empty _ Hs).
      - rewrite checkScreenshots_nonempty by (by rewrite Hs).
        rewrite Hs. by apply rangeScreenshots_ok. }
    case_bool_decide as Hlicense.
    - rewrite (checkMetadataLicense_allowed _ Hlicense).
      by destruct (Screenshots component).
    - rewrite (checkMetadataLicense_not_allowed _ Hlicense).
      by destruct (Screenshots component). }
  split; [exact E|]. by rewrite E.
Qed.

Lemma mandatoryRules_gplMetadataDocument :
  mandatoryRules "org.example.Editor.metainfo.xml" gplMetadataDocument.
Proof.
  split; [right; reflexivity|]. split; [repeat split; discriminate|].
  split; [left; reflexivity|]. split; [by vm_compute|]. split; [by vm_compute|].
  split; [reflexivity | constructor].
Defined.

Lemma mandatoryRules_oneScreenshotDocument :
  mandatoryRules "org.example.Editor.appdata.xml" oneScreenshotDocument.
Proof.
  split; [left; reflexivity|]. split; [repeat split; discriminate|].
  split; [right; reflexivity|]. split; [by vm_compute|]. split; [by vm_compute|].
  split; [reflexivity|]. constructor; [|constructor].
  split; [left; reflexivity|]. intros _. split.
  - right. by exists "example.com/a.png".
  - left. by exists "https://example.com/a".
Defined.

Lemma C5_advisories_witness :
  main fieldNames "org.example.Editor.metainfo.xml" gplMetadataDocument
    = (["Warning: Metadata license is not allowed";
        "Allowed licenses: [FSFAP MIT 0BSD CC0-1.0 CC-BY-3.0 CC-BY-4.0 CC-BY-SA-3.0 CC-BY-SA-4.0 GFDL-1.1 GFDL-1.2 GFDL-1.3 BSL-1.0 FTL FSFUL]";
        "Actual license: GPL-3.0";
        "Warning: No screenshots tag found";
        "Validation complete."], inr tt) ∧
  main fieldNames "org.example.Editor.appdata.xml" oneScreenshotDocument
    = (["Warning: Metadata license is not allowed";
        "Allowed licenses: [FSFAP MIT 0BSD CC0-1.0 CC-BY-3.0 CC-BY-4.0 CC-BY-SA-3.0 CC-BY-SA-4.0 GFDL-1.1 GFDL-1.2 GFDL-1.3 BSL-1.0 FTL FSFUL]";
        "Actual license: GPL-3.0";
        "Validation complete."], inr tt).
Proof.
  split.
  - apply (C5_advisories_keep_the_verdict fieldNames _ _
             mandatoryRules_gplMetadataDocument).
  - apply (C5_advisories_keep_the_verdict fieldNames _ _
             mandatoryRules_oneScreenshotDocument).
Defined.

(** ** C6: the extension check *)

Lemma checkSourceExtension_cases (source : string) :
  7 ≤ len source →
  (imageSuffix source ∧ checkSourceExtension source = mret tt) ∨
  (¬ imageSuffix source ∧ checkSourceExtension source = extensionError source).
Proof.
  intros H7.
  destruct (hasValidExtension_spec source validExtensions) as (valid & _ & Hvalid).
  rewrite (imageSuffix_validExtensions _ H7) in Hvalid. destruct valid.
  - left. assert (imageSuffix source) as Hs by (by apply Hvalid).
    split; [done | by apply checkSourceExtension_valid].
  - right. assert (¬ imageSuffix source) as Hs by (by intros ?%Hvalid).
    split; [done | by apply checkSourceExtension_invalid].
Qed.

(** C6. For a source that passed the prefix check, what remains of the
    check of a "source" screenshot is the extension check, and it passes
    exactly when the source ends, byte for byte, with ".png", ".jpg" or
    ".jpeg". The loop over the candidates tests each one behind its own
    length guard and always returns, and a source without such an ending
    gets the extension Error, with the allowed set and the last four bytes
    of the source, and exit status 1. *)
Theorem C6_extension_check (source : string)
    (Hprefix : checkSourcePrefix source = mret tt) :
  (∀ screenshot,
     ImageType (ScreenshotImage screenshot) = "source" →
     Source (ScreenshotImage screenshot) = source →
     checkScreenshot screenshot = checkSourceExtension source) ∧
  (checkSourceExtension source = mret tt
   ↔ hasSuffix source ".png" ∨ hasSuffix source ".jpg" ∨ hasSuffix source ".jpeg") ∧
  (∃ valid : bool, hasValidExtension source validExtensions = mret valid) ∧
  (¬ (hasSuffix source ".png" ∨ hasSuffix source ".jpg" ∨ hasSuffix source ".jpeg") →
   checkSourceExtension source =
     (["Error: Image source must end with a valid image extension";
       "Valid extensions: [.png .jpg .jpeg]";
       "Actual extension: " +:+ lastBytes 4 source], inl (Exit 1))).
Proof.
  split.
  { intros screenshot Htype Hsource. unfold checkScreenshot.
    rewrite checkImageType_ok by (by left). rewrite (bind_ret_l tt).
    rewrite Htype, Hsource, Hprefix. apply (bind_ret_l tt). }
  apply checkSourcePrefix_pass in Hprefix as [_ H7].
  fold (imageSuffix source). split; [|split].
  - destruct (checkSourceExtension_cases source H7) as [[Hs E]|[Hs E]]; rewrite E.
    + tauto.
    + split; [discriminate | tauto].
  - destruct (hasValidExtension_spec source validExtensions) as (valid & E & _).
    by exists valid.
  - intros Hs. by apply checkSourceExtension_invalid.
Qed.

Lemma C6_extension_check_witness :
  checkSourcePrefix "https://example.com/a.gif" = mret tt ∧
  checkSourceExtension "https://example.com/a.gif" =
    (["Error: Image source must end with a valid image extension";
      "Valid extensions: [.png .jpg .jpeg]";
      "Actual extension: " +:+ lastBytes 4 "https://example.com/a.gif"],
     inl (Exit 1)).
Proof.
  split; [reflexivity|].
  destruct (C6_extension_check "https://example.com/a.gif" eq_refl)
    as (_ & Hpass & _ & Hfail).
  apply Hfail. intros Hs. apply Hpass in Hs. discriminate Hs.
Defined.

(** ** C7: the component type *)

(** C7. For a document that has passed steps 1 and 2, step 3 rejects with
    the type Error exactly when the type is neither "desktop-application"
    nor "desktop", and the run then ends with that Error; each of the two
    allowed values passes step 3. *)
Theorem C7_component_type (order : list string) (filePath : string)
    (component : Component)
    (Hstep1 : checkFilename filePath component = mret tt)
    (Hstep2 : checkRequiredFields order component = mret tt) :
  (checkType component = typeError
   ↔ Type_ component ≠ "desktop-application" ∧ Type_ component ≠ "desktop") ∧
  (Type_ component ≠ "desktop-application" ∧ Type_ component ≠ "desktop" →
   main order filePath component = typeError) ∧
  (Type_ component = "desktop-application" → checkType component = mret tt) ∧
  (Type_ component = "desktop" → checkType component = mret tt).
Proof.
  apply checkFilename_pass_matches in Hstep1.
  split; [|split; [|split]].
  - destruct (typeAllowed_dec component) as [H|H].
    + rewrite (checkType_allowed _ H). unfold typeAllowed in H.
      split; [discriminate | tauto].
    + rewrite (checkType_not_allowed _ H). unfold typeAllowed in H. tauto.
  - intros H. rewrite (main_filename_match _ _ _ Hstep1), Hstep2, (bind_ret_l tt).
    rewrite checkType_not_allowed by (unfold typeAllowed; tauto). done.
  - intros H. apply checkType_allowed. by left.
  - intros H. apply checkType_allowed. by right.
Qed.

Lemma C7_component_type_witness :
  checkFilename "org.example.Editor.metainfo.xml" serviceDocument = mret tt ∧
  checkRequiredFields fieldNames serviceDocument = mret tt ∧
  main fieldNames "org.example.Editor.metainfo.xml" serviceDocument = typeError ∧
  checkType minimalDocument = mret tt.
Proof.
  split; [reflexivity|]. split; [reflexivity|]. split.
  - apply (C7_component_type fieldNames "org.example.Editor.metainfo.xml"
             serviceDocument eq_refl eq_refl).
    split; discriminate.
  - exact (proj1 (proj2 (proj2
             (C7_component_type fieldNames "org.example.Editor.metainfo.xml"
                minimalDocument eq_refl eq_refl))) eq_refl).
Defined.

(** ** C8: the minimum lengths *)

Lemma exitStatus_exit1 (m : M unit) : outcome m = inl (Exit 1) → exitStatus m = 1.
Proof. intros H. unfold exitStatus. by rewrite H. Qed.

Lemma main_short_name (order : list string) (filePath : string) (component : Component) :
  len (Name component) < 2 → outcome (main order filePath component) = inl (Exit 1).
Proof.
  intros H. unfold main.
  apply exit1_bind_r; [apply checkFilename_passOrExit1|].
  apply exit1_bind_r; [apply checkRequiredFields_passOrExit1|].
  apply exit1_bind_r; [apply checkType_passOrExit1|].
  apply exit1_bind_r; [left; apply checkMetadataLicense_outcome|].
  apply exit1_bind_l. by rewrite (checkName_short _ H).
Qed.

Lemma main_short_summary (order : list string) (filePath : string)
    (component : Component) :
  len (Summary component) < 10 → outcome (main order filePath component) = inl (Exit 1).
Proof.
  intros H. unfold main.
  apply exit1_bind_r; [apply checkFilename_passOrExit1|].
  apply exit1_bind_r; [apply checkRequiredFields_passOrExit1|].
  apply exit1_bind_r; [apply checkType_passOrExit1|].
  apply exit1_bind_r; [left; apply checkMetadataLicense_outcome|].
  apply exit1_bind_r; [apply checkName_passOrExit1|].
  apply exit1_bind_l. by rewrite (checkSummary_short _ H).
Qed.

(** Measured in bytes, as Go's [len] does: a name of length 0 or 1 makes
    step 5 report the name Error and the run end with exit status 1; a name
    of length 2 passes step 5. A summary of length 9 makes step 6 report the
    summary Error and the run end with exit status 1; a summary of length
    10 passes step 6. *)
Theorem minimum_lengths_in_bytes (order : list string) (filePath : string)
    (component : Component) :
  (len (Name component) = 0 ∨ len (Name component) = 1 →
   checkName component = nameError ∧
   exitStatus (main order filePath component) = 1) ∧
  (len (Name component) = 2 → checkName component = mret tt) ∧
  (len (Summary component) = 9 →
   checkSummary component = summaryError ∧
   exitStatus (main order filePath component) = 1) ∧
  (len (Summary component) = 10 → checkSummary component = mret tt).
Proof.
  split; [|split; [|split]].
  - intros H. split; [apply checkName_short; lia|].
    apply exitStatus_exit1, main_short_name. lia.
  - intros H. apply checkName_long. lia.
  - intros H. split; [apply checkSummary_short; lia|].
    apply exitStatus_exit1, main_short_summary. lia.
  - intros H. apply checkSummary_long. lia.
Qed.

(** The thresholds in general: step 5 passes from 2 bytes on, step 6 from
    10 bytes on. *)
Lemma checkName_pass_iff (component : Component) :
  checkName component = mret tt ↔ 2 ≤ len (Name component).
Proof.
  split; [|apply checkName_long].
  intros E. destruct (Z_lt_le_dec (len (Name component)) 2) as [H|H]; [|done].
  rewrite (checkName_short _ H) in E. discriminate E.
Qed.

Lemma checkSummary_pass_iff (component : Component) :
  checkSummary component = mret tt ↔ 10 ≤ len (Summary component).
Proof.
  split; [|apply checkSummary_long].
  intros E. destruct (Z_lt_le_dec (len (Summary component)) 10) as [H|H]; [|done].
  rewrite (checkSummary_short _ H) in E. discriminate E.
Qed.

Lemma minimum_lengths_in_bytes_witness :
  (checkName (lengthsDocument "E" "Edits plain text") = nameError ∧
   exitStatus (main fieldNames "org.example.Editor.metainfo.xml"
                 (lengthsDocument "E" "Edits plain text")) = 1) ∧
  checkName (lengthsDocument "Ed" "Edits plain text") = mret tt ∧
  (checkSummary (lengthsDocument "Editor" "Edits txt") = summaryError ∧
   exitStatus (main fieldNames "org.example.Editor.metainfo.xml"
                 (lengthsDocument "Editor" "Edits txt")) = 1) ∧
  checkSummary (lengthsDocument "Editor" "Edits text") = mret tt.
Proof.
  pose proof (minimum_lengths_in_bytes fieldNames "org.example.Editor.metainfo.xml") as H.
  split; [|split; [|split]].
  - apply (proj1 (H (lengthsDocument "E" "Edits plain text"))).
    right; reflexivity.
  - apply (proj1 (proj2 (H (lengthsDocument "Ed" "Edits plain text")))).
    reflexivity.
  - apply (proj1 (proj2 (proj2 (H (lengthsDocument "Editor" "Edits txt"))))).
    reflexivity.
  - apply (proj2 (proj2 (proj2 (H (lengthsDocument "Editor" "Edits text"))))).
    reflexivity.
Defined.

(** A name of one character can be two bytes long: "é" in UTF-8 is the
    bytes 195 and 169, and [len] counts both, so step 5 lets it pass. *)
Example checkName_counts_bytes :
  checkName (lengthsDocument (String "195" (String "169" "")) "Edits plain text")
    = mret tt.
Proof. reflexivity. Qed.

(** A text has at most as many characters as bytes, so the accepting half
    of the thresholds holds in characters too: a name of two characters or
    more passes step 5, a summary of ten or more passes step 6. *)
Lemma utf8Characters_le_len (s : string) : Z.of_nat (utf8Characters s) ≤ len s.
Proof.
  unfold len. induction s as [|b s IH]; simpl; [done|].
  destruct (utf8Continuation b); lia.
Qed.

Lemma enough_characters_pass (component : Component) :
  ((2 ≤ utf8Characters (Name component))%nat → checkName component = mret tt) ∧
  ((10 ≤ utf8Characters (Summary component))%nat →
   checkSummary component = mret tt).
Proof.
  split; intros H.
  - apply checkName_long. pose proof (utf8Characters_le_len (Name component)). lia.
  - apply checkSummary_long.
    pose proof (utf8Characters_le_len (Summary component)). lia.
Qed.

(** C8. The thresholds are stated in characters, by the specification and
    by the program's own comments and messages ("at least 2 characters
    long"), but lines 149 and 156 compare [len], which counts bytes. The
    name "é" is one character and two bytes, and passes step 5; a summary of
    nine "é" is nine characters and eighteen bytes, and passes step 6. The
    document with both is accepted, with exit status 0. *)
Theorem C8_one_character_name_passes :
  utf8Characters (Name multibyteDocument) = 1%nat ∧
  len (Name multibyteDocument) = 2 ∧
  checkName multibyteDocument = mret tt ∧
  utf8Characters (Summary multibyteDocument) = 9%nat ∧
  len (Summary multibyteDocument) = 18 ∧
  checkSummary multibyteDocument = mret tt ∧
  main fieldNames "org.example.Editor.metainfo.xml" multibyteDocument
    = (["Warning: No screenshots tag found"; "Validation complete."], inr tt) ∧
  exitStatus (main fieldNames "org.example.Editor.metainfo.xml" multibyteDocument) = 0.
Proof. repeat split; by vm_compute. Qed.

(** ** C9: two runs on the same input *)

(** C9, as stated, fails: Go leaves the order of a [range] over a map
    unspecified, so the loop over [requiredFields] may visit the keys in any
    order, and two runs on the same document and file name that visit them
    in different orders report different fields. *)
Lemma C9_counterexample :
  iterationOrder (requiredFields twoAbsentDocument) fieldNames ∧
  iterationOrder (requiredFields twoAbsentDocument) (reverse fieldNames) ∧
  main fieldNames "org.example.Editor.metainfo.xml" twoAbsentDocument
    = (["Error: Name must not be empty"], inl (Exit 1)) ∧
  main (reverse fieldNames) "org.example.Editor.metainfo.xml" twoAbsentDocument
    = (["Error: Summary must not be empty"], inl (Exit 1)) ∧
  main fieldNames "org.example.Editor.metainfo.xml" twoAbsentDocument
    ≠ main (reverse fieldNames) "org.example.Editor.metainfo.xml" twoAbsentDocument.
Proof.
  split; [by apply iterationOrder_fieldNames|].
  split; [apply iterationOrder_fieldNames, reverse_Permutation|].
  repeat split; by vm_compute.
Qed.

(** C9 (amended). Two runs on the same document and file name end the same
    way (same exit or panic), and print the same lines unless both stop at
    step 2, where each prints the presence Error of one empty field, not
    necessarily the same one. When at most one mandatory field is empty the
    two runs are identical. *)
Theorem C9_runs_agree_up_to_reported_field (order1 order2 : list string)
    (filePath : string) (component : Component)
    (Horder1 : iterationOrder (requiredFields component) order1)
    (Horder2 : iterationOrder (requiredFields component) order2) :
  outcome (main order1 filePath component) = outcome (main order2 filePath component) ∧
  (main order1 filePath component = main order2 filePath component ∨
   ∃ field1 field2,
     requiredFields component !! field1 = Some "" ∧
     requiredFields component !! field2 = Some "" ∧
     main order1 filePath component = presenceError field1 ∧
     main order2 filePath component = presenceError field2) ∧
  (atMostOneAbsent component →
   main order1 filePath component = main order2 filePath component).
Proof.
  destruct (filenameMatches_dec filePath component) as [Hm|Hm].
  2: { rewrite !(main_filename_mismatch _ _ _ Hm).
       split; [done|]. split; [by left | done]. }
  rewrite !(main_filename_match _ _ _ Hm). unfold checkRequiredFields.
  rewrite !rangeMap_requiredBody.
  apply iterationOrder_fieldNames in Horder1, Horder2.
  destruct (firstEmpty order1 (requiredFields component)) as [k1|] eqn:E1;
    destruct (firstEmpty order2 (requiredFields component)) as [k2|] eqn:E2.
  - apply firstEmpty_Some in E1 as [_ Hk1], E2 as [_ Hk2].
    split; [done|]. split.
    + right. by exists k1, k2.
    + intros Hone. by rewrite (Hone k1 k2 Hk1 Hk2).
  - exfalso. apply firstEmpty_Some in E1 as [Hin Hk1].
    eapply firstEmpty_None; [exact E2 | | exact Hk1].
    by rewrite Horder2, <- Horder1.
  - exfalso. apply firstEmpty_Some in E2 as [Hin Hk2].
    eapply firstEmpty_None; [exact E1 | | exact Hk2].
    by rewrite Horder1, <- Horder2.
  - split; [done|]. split; [by left | done].
Qed.

Lemma C9_runs_agree_witness :
  iterationOrder (requiredFields twoAbsentDocument) fieldNames ∧
  iterationOrder (requiredFields twoAbsentDocument) (reverse fieldNames) ∧
  outcome (main fieldNames "org.example.Editor.metainfo.xml" twoAbsentDocument)
    = outcome (main (reverse fieldNames) "org.example.Editor.metainfo.xml"
                 twoAbsentDocument).
Proof.
  assert (iterationOrder (requiredFields twoAbsentDocument) fieldNames) as H1
    by (by apply iterationOrder_fieldNames).
  assert (iterationOrder (requiredFields twoAbsentDocument) (reverse fieldNames)) as H2
    by (apply iterationOrder_fieldNames, reverse_Permutation).
  split; [exact H1|]. split; [exact H2|].
  exact (proj1 (C9_runs_agree_up_to_reported_field fieldNames (reverse fieldNames)
                  "org.example.Editor.metainfo.xml" twoAbsentDocument H1 H2)).
Defined.

(** ** C10: the inner test on the screenshots *)

(** C10. No run prints "Error: No screenshot tag found inside screenshots
    tag": the branch of line 177 is entered only when the list of
    screenshots is not empty, where its test is false. With no screenshot
    step 8 prints the warning and nothing else; with screenshots it is the
    loop over them alone. *)
Theorem C10_inner_error_unreachable (order : list string) (filePath : string)
    (component : Component) :
  ("Error: No screenshot tag found inside screenshots tag"
     ∉ stdout (main order filePath component)) ∧
  (Screenshots component = [] →
   checkScreenshots component = (["Warning: No screenshots tag found"], inr tt)) ∧
  (Screenshots component ≠ [] →
   checkScreenshots component = rangeScreenshots (Screenshots component)).
Proof.
  split; [|split].
  - intros Hin. by apply (main_prints order filePath component) in Hin.
  - apply checkScreenshots_empty.
  - apply checkScreenshots_nonempty.
Qed.

Lemma C10_inner_error_unreachable_witness :
  checkScreenshots minimalDocument = (["Warning: No screenshots tag found"], inr tt) ∧
  checkScreenshots sevenByteSourceDocument
    = rangeScreenshots (Screenshots sevenByteSourceDocument).
Proof.
  split.
  - exact (proj1 (proj2 (C10_inner_error_unreachable fieldNames
                           "org.example.Editor.metainfo.xml" minimalDocument))
             eq_refl).
  - apply (proj2 (proj2 (C10_inner_error_unreachable fieldNames
                           "org.example.Editor.metainfo.xml"
                           sevenByteSourceDocument))).
    discriminate.
Defined.

(** * Further properties of the validator *)

(** ** How a run can end *)

Lemma outcome_bind_unit {B} (m : M unit) (f : unit → M B) (r : B) :
  outcome (m ≫= f) = inr r ↔ outcome m = inr tt ∧ outcome (f tt) = inr r.
Proof.
  rewrite outcome_bind. destruct (outcome m) as [h|[]]; split.
  - discriminate.
  - intros [? _]; discriminate.
  - done.
  - by intros [_ ?].
Qed.

Lemma outcome_bind_halt {B} (m : M unit) (f : unit → M B) (h : halt) :
  outcome (m ≫= f) = inl h
  ↔ outcome m = inl h ∨ (outcome m = inr tt ∧ outcome (f tt) = inl h).
Proof.
  rewrite outcome_bind. destruct (outcome m) as [h'|[]]; split.
  - intros [= ->]. by left.
  - intros [[= ->]|[H _]]; [done | discriminate].
  - intros H. by right.
  - intros [H|[_ H]]; [discriminate | done].
Qed.

Lemma checkFilename_outcome (filePath : string) (component : Component) :
  outcome (checkFilename filePath component) = inr tt
  ↔ filenameMatches filePath component.
Proof.
  destruct (filenameMatches_dec filePath component) as [H|H].
  - by rewrite (checkFilename_match _ _ H).
  - rewrite (checkFilename_mismatch _ _ H). split; [discriminate | done].
Qed.

Lemma checkRequiredFields_outcome (order : list string) (component : Component) :
  iterationOrder (requiredFields component) order →
  outcome (checkRequiredFields order component) = inr tt ↔ allPresent component.
Proof.
  intros Horder. destruct (someAbsent_dec component) as [H|H].
  - destruct (checkRequiredFields_someAbsent _ _ Horder H) as (k & _ & _ & ->).
    split; [discriminate|]. intros Hall%allPresent_not_someAbsent. done.
  - by rewrite (checkRequiredFields_allPresent _ _ H).
Qed.

Lemma checkType_outcome (component : Component) :
  outcome (checkType component) = inr tt ↔ typeAllowed component.
Proof.
  destruct (typeAllowed_dec component) as [H|H].
  - by rewrite (checkType_allowed _ H).
  - rewrite (checkType_not_allowed _ H). split; [discriminate | done].
Qed.

Lemma checkName_outcome (component : Component) :
  outcome (checkName component) = inr tt ↔ 2 ≤ len (Name component).
Proof.
  destruct (Z_lt_le_dec (len (Name component)) 2) as [H|H].
  - rewrite (checkName_short _ H). split; [discriminate | lia].
  - by rewrite (checkName_long _ H).
Qed.

Lemma checkSummary_outcome (component : Component) :
  outcome (checkSummary component) = inr tt ↔ 10 ≤ len (Summary component).
Proof.
  destruct (Z_lt_le_dec (len (Summary component)) 10) as [H|H].
  - rewrite (checkSummary_short _ H). split; [discriminate | lia].
  - by rewrite (checkSummary_long _ H).
Qed.

Lemma checkLaunchable_outcome (component : Component) :
  outcome (checkLaunchable component) = inr tt
  ↔ LaunchableType (Launchable_ component) = "desktop-id".
Proof.
  destruct (String.eqb_spec (LaunchableType (Launchable_ component)) "desktop-id")
    as [H|H].
  - by rewrite (checkLaunchable_desktop_id _ H).
  - rewrite (checkLaunchable_other _ H). split; [discriminate | done].
Qed.

Lemma checkLaunchable_passOrExit1 (component : Component) :
  passOrExit1 (checkLaunchable component).
Proof.
  destruct (String.eqb_spec (LaunchableType (Launchable_ component)) "desktop-id")
    as [H|H].
  - left. by rewrite (checkLaunchable_desktop_id _ H).
  - right. by rewrite (checkLaunchable_other _ H).
Qed.

(** ** The screenshots, one by one *)

Lemma panicking_not_httpPrefix (source : string) :
  len source = 7 → source ≠ "http://" → ¬ httpPrefix source.
Proof.
  intros H7 Hne [[t ->]|Hp].
  - destruct Hne. unfold len in H7. rewrite string_app_length in H7. simpl in H7.
    destruct t; [done | simpl in H7; lia].
  - apply hasPrefix_len in Hp. unfold len in *. simpl in Hp. lia.
Qed.

Lemma checkScreenshot_source (screenshot : Screenshot) :
  ImageType (ScreenshotImage screenshot) = "source" →
  checkScreenshot screenshot =
    (checkSourcePrefix (Source (ScreenshotImage screenshot)) ;;
     checkSourceExtension (Source (ScreenshotImage screenshot))).
Proof.
  intros Htype. unfold checkScreenshot.
  rewrite checkImageType_ok by (by left). rewrite (bind_ret_l tt).
  by rewrite Htype.
Qed.

(** Every way the check of one screenshot can go. *)
Lemma checkScreenshot_cases (screenshot : Screenshot) :
  (screenshotOk screenshot ∧ checkScreenshot screenshot = mret tt) ∨
  (¬ screenshotOk screenshot ∧
   ((ImageType (ScreenshotImage screenshot) ≠ "source" ∧
     checkScreenshot screenshot = imageTypeError) ∨
    (ImageType (ScreenshotImage screenshot) = "source" ∧
     len (Source (ScreenshotImage screenshot)) ≠ 7 ∧
     checkScreenshot screenshot = prefixError) ∨
    (panickingScreenshot screenshot ∧
     checkScreenshot screenshot = ([], inl (PanicSliceBounds 8 7))) ∨
    (ImageType (ScreenshotImage screenshot) = "source" ∧
     httpPrefix (Source (ScreenshotImage screenshot)) ∧
     checkScreenshot screenshot
       = extensionError (Source (ScreenshotImage screenshot))))).
Proof.
  unfold screenshotOk, panickingScreenshot.
  set (type := ImageType (ScreenshotImage screenshot)).
  set (source := Source (ScreenshotImage screenshot)).
  destruct (String.eqb_spec type "source") as [Hsource|Nsource].
  - rewrite (checkScreenshot_source _ Hsource). fold source.
    destruct (badPrefix_cases source)
      as [[Hl E]|[[Hh E]|[(Hl & Hn & E)|[(Hl & Hn & Hs & E)|(Hl & Hn & E)]]]].
    + right. split.
      * intros [_ H]. destruct (H Hsource) as [[Hp|Hp] _];
          apply hasPrefix_len in Hp; unfold len in *; simpl in Hp; lia.
      * right. left. split; [done|]. split; [lia|].
        by rewrite (checkSourcePrefix_short _ Hl).
    + assert (httpPrefix source) as Hp by (by left).
      assert (7 ≤ len source) as H7
        by (apply checkSourcePrefix_pass; by apply checkSourcePrefix_http).
      rewrite (checkSourcePrefix_http _ Hp), (bind_ret_l tt).
      destruct (checkSourceExtension_cases source H7) as [[Hs ->]|[Hs ->]].
      * left. split; [|done]. split; [by left | done].
      * right. split; [intros [_ H]; destruct (H Hsource); done|].
        do 3 right. done.
    + right. split.
      * intros [_ H]. destruct (H Hsource) as [Hp _].
        by apply (panicking_not_httpPrefix source).
      * right. right. left. split; [done|].
        assert (checkSourcePrefix source = ([], inl (PanicSliceBounds 8 7))) as ->
          by (by apply checkSourcePrefix_panics).
        done.
    + assert (httpPrefix source) as Hp by (by right).
      assert (7 ≤ len source) as H7 by lia.
      rewrite (checkSourcePrefix_http _ Hp), (bind_ret_l tt).
      destruct (checkSourceExtension_cases source H7) as [[Hs' ->]|[Hs' ->]].
      * left. split; [|done]. split; [by left | done].
      * right. split; [intros [_ H]; destruct (H Hsource); done|].
        do 3 right. done.
    + right. split; [intros [_ H]; destruct (H Hsource); done|].
      right. left. split; [done|]. split; [lia|].
      by rewrite (checkSourcePrefix_long_other _ Hl Hn).
  - destruct (String.eqb_spec type "video") as [Hvideo|Nvideo].
    { left. split; [split; [by right; left | done]|].
      unfold checkScreenshot. rewrite checkImageType_ok by (by right; left).
      rewrite (bind_ret_l tt). fold type. by rewrite Hvideo. }
    destruct (String.eqb_spec type "") as [Hempty|Nempty].
    { left. split; [split; [by right; right | done]|].
      unfold checkScreenshot. rewrite checkImageType_ok by (by right; right).
      rewrite (bind_ret_l tt). fold type. by rewrite Hempty. }
    right. split; [intros [[?|[?|?]] _]; done|].
    left. split; [done|]. unfold checkScreenshot.
    by rewrite checkImageType_other.
Qed.

Lemma checkScreenshot_ok_iff (screenshot : Screenshot) :
  checkScreenshot screenshot = mret tt ↔ screenshotOk screenshot.
Proof.
  split; [|apply checkScreenshot_ok].
  destruct (checkScreenshot_cases screenshot)
    as [[Hok _]|[_ [[_ E]|[(_ & _ & E)|[[_ E]|(_ & _ & E)]]]]];
    [done | rewrite E; discriminate ..].
Qed.

Lemma checkScreenshot_bad_halts (screenshot : Screenshot) :
  ¬ screenshotOk screenshot →
  ∃ out h, checkScreenshot screenshot = (out, inl h).
Proof.
  intros Hbad.
  destruct (checkScreenshot_cases screenshot)
    as [[Hok _]|[_ [[_ E]|[(_ & _ & E)|[[_ E]|(_ & _ & E)]]]]];
    [done | rewrite E; by eexists _, _ ..].
Qed.

(** The loop over the screenshots: all of them pass, or the loop ends with
    the first one that does not. *)
Lemma rangeScreenshots_cases (screenshots : list Screenshot) :
  (Forall screenshotOk screenshots ∧ rangeScreenshots screenshots = mret tt) ∨
  (∃ good bad rest,
     screenshots = good ++ bad :: rest ∧ Forall screenshotOk good ∧
     ¬ screenshotOk bad ∧ rangeScreenshots screenshots = checkScreenshot bad).
Proof.
  induction screenshots as [|screenshot rest IH]; [by left|].
  destruct (checkScreenshot_cases screenshot) as [[Hok E]|[Hbad _]].
  - destruct IH as [[Hall Er]|(good & bad & rest' & -> & Hgood & Hbad & Er)].
    + left. split; [by constructor|]. simpl. by rewrite E, (bind_ret_l tt).
    + right. exists (screenshot :: good), bad, rest'.
      split; [done|]. split; [by constructor|]. split; [done|].
      simpl. by rewrite E, (bind_ret_l tt).
  - right. exists [], screenshot, rest. split; [done|]. split; [constructor|].
    split; [done|]. simpl.
    destruct (checkScreenshot_bad_halts _ Hbad) as (out & h & ->). done.
Qed.

Lemma rangeScreenshots_app (good rest : list Screenshot) :
  Forall screenshotOk good →
  rangeScreenshots (good ++ rest) = rangeScreenshots rest.
Proof.
  induction 1 as [|screenshot good Hok _ IH]; simpl; [done|].
  by rewrite (checkScreenshot_ok _ Hok), (bind_ret_l tt).
Qed.

Lemma checkScreenshot_panicking (screenshot : Screenshot) :
  panickingScreenshot screenshot →
  checkScreenshot screenshot = ([], inl (PanicSliceBounds 8 7)).
Proof.
  intros (Htype & H7 & Hne). rewrite (checkScreenshot_source _ Htype).
  assert (checkSourcePrefix (Source (ScreenshotImage screenshot))
          = ([], inl (PanicSliceBounds 8 7))) as ->
    by (by apply checkSourcePrefix_panics).
  done.
Qed.

Lemma checkScreenshots_range (component : Component) :
  outcome (checkScreenshots component)
    = outcome (rangeScreenshots (Screenshots component)).
Proof.
  destruct (Screenshots component) as [|screenshot rest] eqn:E.
  - by rewrite (checkScreenshots_empty _ E).
  - rewrite checkScreenshots_nonempty by (by rewrite E). by rewrite E.
Qed.

Lemma checkScreenshots_outcome (component : Component) :
  outcome (checkScreenshots component) = inr tt
  ↔ Forall screenshotOk (Screenshots component).
Proof.
  rewrite checkScreenshots_range.
  destruct (rangeScreenshots_cases (Screenshots component))
    as [[Hall ->]|(good & bad & rest & E & Hgood & Hbad & ->)]; [done|].
  destruct (checkScreenshot_bad_halts _ Hbad) as (out & h & ->).
  split; [discriminate|]. rewrite E, Forall_app, Forall_cons. tauto.
Qed.

Lemma halt_exit1_dec (h : halt) : h = Exit 1 ∨ h ≠ Exit 1.
Proof.
  destruct h as [code|bound length]; [|by right].
  destruct (Z.eq_dec code 1) as [->|Hcode]; [by left | right; congruence].
Qed.

(** The loop over the screenshots panics exactly when the first screenshot
    that is not acceptable is one the prefix check panics on. *)
Lemma checkScreenshots_panics (component : Component) (h : halt) :
  outcome (checkScreenshots component) = inl h → h ≠ Exit 1 →
  h = PanicSliceBounds 8 7 ∧
  ∃ good bad rest,
    Screenshots component = good ++ bad :: rest ∧
    Forall screenshotOk good ∧ panickingScreenshot bad.
Proof.
  rewrite checkScreenshots_range.
  destruct (rangeScreenshots_cases (Screenshots component))
    as [[Hall ->]|(good & bad & rest & E & Hgood & Hbad & ->)]; [discriminate|].
  destruct (checkScreenshot_cases bad)
    as [[Hok _]|[_ [[_ Eb]|[(_ & _ & Eb)|[[Hp Eb]|(_ & _ & Eb)]]]]];
    [done | rewrite Eb; intros [= <-] Hne; try done ..].
  split; [done|]. by exists good, bad, rest.
Qed.

(** Steps 1 to 7: either the scalar rules hold and the run goes on to the
    screenshots, or they do not and the run ends with exit status 1. *)
Lemma main_scalar_steps (order : list string) (filePath : string)
    (component : Component) :
  iterationOrder (requiredFields component) order →
  (scalarRules filePath component ∧
   outcome (main order filePath component)
     = outcome (checkScreenshots component ;; Println "Validation complete.")) ∨
  (¬ scalarRules filePath component ∧
   outcome (main order filePath component) = inl (Exit 1)).
Proof.
  intros Horder. unfold scalarRules.
  destruct (filenameMatches_dec filePath component) as [Hfile|Hfile].
  2: { right. split; [unfold filenameMatches in Hfile; tauto|].
       by rewrite (main_filename_mismatch _ _ _ Hfile). }
  rewrite (main_filename_match _ _ _ Hfile). unfold filenameMatches in Hfile.
  destruct (someAbsent_dec component) as [Habsent|Hpresent].
  { right. split; [intros (_ & H%allPresent_not_someAbsent & _); done|].
    destruct (checkRequiredFields_someAbsent _ _ Horder Habsent) as (k & _ & _ & ->).
    done. }
  rewrite (checkRequiredFields_allPresent _ _ Hpresent), (bind_ret_l tt).
  destruct (typeAllowed_dec component) as [Htype|Htype].
  2: { right. split; [unfold typeAllowed in Htype; tauto|].
       by rewrite (checkType_not_allowed _ Htype). }
  rewrite (checkType_allowed _ Htype), (bind_ret_l tt). unfold typeAllowed in Htype.
  rewrite outcome_bind, checkMetadataLicense_outcome.
  destruct (Z_lt_le_dec (len (Name component)) 2) as [Hname|Hname].
  { right. split; [lia|]. by rewrite (checkName_short _ Hname). }
  rewrite (checkName_long _ Hname), (bind_ret_l tt).
  destruct (Z_lt_le_dec (len (Summary component)) 10) as [Hsummary|Hsummary].
  { right. split; [lia|]. by rewrite (checkSummary_short _ Hsummary). }
  rewrite (checkSummary_long _ Hsummary), (bind_ret_l tt).
  destruct (String.eqb_spec (LaunchableType (Launchable_ component)) "desktop-id")
    as [Hlaunch|Hlaunch].
  2: { right. split; [tauto|]. by rewrite (checkLaunchable_other _ Hlaunch). }
  rewrite (checkLaunchable_desktop_id _ Hlaunch), (bind_ret_l tt).
  left. done.
Qed.

Lemma mandatoryRules_scalarRules (filePath : string) (component : Component) :
  mandatoryRules filePath component
  ↔ scalarRules filePath component ∧ Forall screenshotOk (Screenshots component).
Proof. unfold mandatoryRules, scalarRules. tauto. Qed.

Lemma main_exit0_iff (order : list string) (filePath : string)
    (component : Component) :
  iterationOrder (requiredFields component) order →
  exitStatus (main order filePath component) = 0
  ↔ mandatoryRules filePath component.
Proof.
  intros Horder. rewrite mandatoryRules_scalarRules. unfold exitStatus.
  destruct (main_scalar_steps order filePath component Horder)
    as [[Hscalar ->]|[Hscalar ->]]; [|split; [done | tauto]].
  rewrite outcome_bind.
  destruct (outcome (checkScreenshots component)) as [h|[]] eqn:E.
  - split.
    + intros Hzero. exfalso.
      destruct (halt_exit1_dec h) as [->|Hh]; [done|].
      destruct (checkScreenshots_panics component h E Hh) as [-> _]. done.
    + intros [_ Hall%checkScreenshots_outcome]. congruence.
  - apply checkScreenshots_outcome in E. simpl. tauto.
Qed.

(** X1. With the keys of [requiredFields] visited in any order, a run ends
    with exit status 0 exactly when the document and the file name satisfy
    the mandatory rules: nothing else is needed, and nothing less is
    accepted. *)
Theorem accepted_iff_mandatoryRules (order : list string) (filePath : string)
    (component : Component)
    (Horder : iterationOrder (requiredFields component) order) :
  exitStatus (main order filePath component) = 0
  ↔ mandatoryRules filePath component.
Proof. by apply main_exit0_iff. Qed.

Lemma accepted_iff_mandatoryRules_witness :
  iterationOrder (requiredFields oneScreenshotDocument) (reverse fieldNames) ∧
  mandatoryRules "org.example.Editor.appdata.xml" oneScreenshotDocument.
Proof.
  assert (iterationOrder (requiredFields oneScreenshotDocument) (reverse fieldNames))
    as Horder by (apply iterationOrder_fieldNames, reverse_Permutation).
  split; [exact Horder|].
  apply (accepted_iff_mandatoryRules (reverse fieldNames)
           "org.example.Editor.appdata.xml" oneScreenshotDocument Horder).
  reflexivity.
Defined.

(** X2. A run ends in one of three ways: it returns (exit status 0), it
    calls [os.Exit(1)], or it panics on the slice [Source[:8]] of a
    seven-byte source. The panic happens exactly when the scalar rules of
    steps 1 to 7 hold and the first screenshot that is not acceptable is a
    "source" image whose source has seven bytes and is not "http://". *)
Theorem main_panics_iff (order : list string) (filePath : string)
    (component : Component)
    (Horder : iterationOrder (requiredFields component) order) :
  (outcome (main order filePath component) = inr tt ∨
   outcome (main order filePath component) = inl (Exit 1) ∨
   outcome (main order filePath component) = inl (PanicSliceBounds 8 7)) ∧
  (outcome (main order filePath component) = inl (PanicSliceBounds 8 7)
   ↔ scalarRules filePath component ∧
     ∃ good bad rest,
       Screenshots component = good ++ bad :: rest ∧
       Forall screenshotOk good ∧ panickingScreenshot bad).
Proof.
  destruct (main_scalar_steps order filePath component Horder)
    as [[Hscalar ->]|[Hscalar ->]].
  2: { split; [by right; left|]. split; [discriminate | tauto]. }
  rewrite outcome_bind.
  destruct (outcome (checkScreenshots component)) as [h|[]] eqn:E.
  - destruct (halt_exit1_dec h) as [->|Hh].
    + split; [by right; left|]. split; [discriminate|].
      intros (_ & good & bad & rest & Hs & Hgood & Hbad). exfalso.
      rewrite checkScreenshots_range, Hs, (rangeScreenshots_app _ _ Hgood) in E.
      simpl in E. rewrite (checkScreenshot_panicking _ Hbad) in E. discriminate E.
    + destruct (checkScreenshots_panics component h E Hh) as [-> Hex].
      split; [by right; right|]. tauto.
  - split; [by left|]. split; [discriminate|].
    intros (_ & good & bad & rest & Hs & Hgood & Hbad). exfalso.
    rewrite checkScreenshots_range, Hs, (rangeScreenshots_app _ _ Hgood) in E.
    simpl in E. rewrite (checkScreenshot_panicking _ Hbad) in E. discriminate E.
Qed.

Lemma main_panics_iff_witness :
  iterationOrder (requiredFields sevenByteSourceDocument) fieldNames ∧
  outcome (main fieldNames "org.example.Editor.metainfo.xml" sevenByteSourceDocument)
    = inl (PanicSliceBounds 8 7).
Proof.
  assert (iterationOrder (requiredFields sevenByteSourceDocument) fieldNames)
    as Horder by (by apply iterationOrder_fieldNames).
  split; [exact Horder|].
  apply (main_panics_iff fieldNames "org.example.Editor.metainfo.xml"
           sevenByteSourceDocument Horder).
  split.
  - split; [right; reflexivity|]. split; [repeat split; discriminate|].
    split; [left; reflexivity|]. split; [by vm_compute|]. split; [by vm_compute|].
    reflexivity.
  - exists [], (screenshotOf "source" "ftp://x"), [].
    split; [reflexivity|]. split; [constructor|].
    split; [reflexivity|]. split; [reflexivity | discriminate].
Defined.

(** ** Error texts and the way a run ends *)

Lemma errorLines_app (out1 out2 : list string) :
  errorLines (out1 ++ out2) = errorLines out1 ++ errorLines out2.
Proof. apply List.filter_app. Qed.

Lemma accounted_bind {A B} (m : M A) (f : A → M B) :
  accounted m → (∀ a, accounted (f a)) → accounted (m ≫= f).
Proof.
  unfold accounted. intros Hm Hf.
  rewrite stdout_bind, outcome_bind, errorLines_app, length_app, Hm.
  destruct (outcome m) as [[code|bound lenght]|a]; simpl; [lia | lia |].
  apply Hf.
Qed.

Lemma accounted_presenceError (field : string) : accounted (presenceError field).
Proof.
  unfold accounted, presenceError, stdout, outcome, errorLines; simpl.
  by destruct (field +:+ " must not be empty").
Qed.

Lemma accounted_checkRequiredFields (order : list string) (component : Component) :
  accounted (checkRequiredFields order component).
Proof.
  unfold checkRequiredFields. rewrite rangeMap_requiredBody.
  destruct (firstEmpty _ _); [apply accounted_presenceError | done].
Qed.

Lemma accounted_checkScreenshot (screenshot : Screenshot) :
  accounted (checkScreenshot screenshot).
Proof.
  destruct (checkScreenshot_cases screenshot)
    as [[_ E]|[_ [[_ E]|[(_ & _ & E)|[[_ E]|(_ & _ & E)]]]]]; by rewrite E.
Qed.

Lemma accounted_rangeScreenshots (screenshots : list Screenshot) :
  accounted (rangeScreenshots screenshots).
Proof.
  induction screenshots as [|screenshot rest IH]; simpl; [done|].
  apply accounted_bind; [apply accounted_checkScreenshot | intros _; exact IH].
Qed.

Lemma accounted_checkScreenshots (component : Component) :
  accounted (checkScreenshots component).
Proof.
  destruct (Screenshots component) as [|screenshot rest] eqn:E.
  - by rewrite (checkScreenshots_empty _ E).
  - rewrite checkScreenshots_nonempty by (by rewrite E).
    apply accounted_rangeScreenshots.
Qed.

(** A run that ends with [os.Exit] has made exactly one [Println] call
    whose text starts with "Error: ", and a run that returns or panics has
    made none. *)
Lemma main_accounted (order : list string) (filePath : string)
    (component : Component) :
  accounted (main order filePath component).
Proof.
  unfold main.
  apply accounted_bind; [|intros _].
  { destruct (filenameMatches_dec filePath component) as [H|H].
    - by rewrite (checkFilename_match _ _ H).
    - by rewrite (checkFilename_mismatch _ _ H). }
  apply accounted_bind; [apply accounted_checkRequiredFields | intros _].
  apply accounted_bind; [|intros _].
  { destruct (typeAllowed_dec component) as [H|H].
    - by rewrite (checkType_allowed _ H).
    - by rewrite (checkType_not_allowed _ H). }
  apply accounted_bind; [|intros _].
  { unfold checkMetadataLicense. by destruct (negb _). }
  apply accounted_bind; [|intros _].
  { unfold checkName. by destruct (_ <? _). }
  apply accounted_bind; [|intros _].
  { unfold checkSummary. by destruct (_ <? _). }
  apply accounted_bind; [|intros _].
  { unfold checkLaunchable. by destruct (negb _). }
  apply accounted_bind; [apply accounted_checkScreenshots | intros _].
  done.
Qed.

(** ** The closing line *)

Ltac line_step :=
  first
    [ apply prints_ret
    | apply prints_halt
    | apply prints_Println; reflexivity
    | apply prints_bind; [|intros ?] ].

Lemma checkLine_checkRequiredFields (order : list string) (component : Component) :
  prints (λ line, checkLine line = true) (checkRequiredFields order component).
Proof.
  unfold checkRequiredFields. rewrite rangeMap_requiredBody.
  destruct (firstEmpty _ _) as [k|]; [|apply prints_ret].
  intros line Hline. unfold presenceError, stdout in Hline; simpl in Hline.
  apply list_elem_of_singleton in Hline as ->.
  unfold checkLine; simpl. by destruct (k +:+ " must not be empty").
Qed.

Lemma checkLine_checkScreenshot (screenshot : Screenshot) :
  prints (λ line, checkLine line = true) (checkScreenshot screenshot).
Proof.
  intros line.
  destruct (checkScreenshot_cases screenshot)
    as [[_ E]|[_ [[_ E]|[(_ & _ & E)|[[_ E]|(_ & _ & E)]]]]]; rewrite E;
    unfold stdout; simpl; rewrite ?elem_of_cons, ?elem_of_nil;
    intros H; repeat (destruct H as [->|H]; [reflexivity|]); done.
Qed.

Lemma checkLine_rangeScreenshots (screenshots : list Screenshot) :
  prints (λ line, checkLine line = true) (rangeScreenshots screenshots).
Proof.
  induction screenshots as [|screenshot rest IH]; simpl; [line_step|].
  apply prints_bind; [apply checkLine_checkScreenshot | intros _; exact IH].
Qed.

Lemma checkLine_checkScreenshots (component : Component) :
  prints (λ line, checkLine line = true) (checkScreenshots component).
Proof.
  unfold checkScreenshots.
  destruct (Z.of_nat (length (Screenshots component)) =? 0); [line_step|].
  apply prints_bind; [line_step | intros _; apply checkLine_rangeScreenshots].
Qed.

Lemma completes_bind (m f : M unit) :
  prints (λ line, checkLine line = true) m → completes f → completes (m ;; f).
Proof.
  intros Hm [Hiff Hlast]. unfold completes.
  rewrite stdout_bind, outcome_bind. destruct (outcome m) as [h|[]] eqn:E.
  - rewrite app_nil_r. split; [|discriminate]. split; [|discriminate].
    intros Hin%Hm. discriminate Hin.
  - split.
    + rewrite elem_of_app, <- Hiff. split; [|by right].
      intros [Hin%Hm|Hin]; [discriminate Hin | done].
    + intros Hf. rewrite last_app, (Hlast Hf). done.
Qed.

(** The text "Validation complete." is handed to [Println] exactly when the
    run returns, and is then the last text. *)
Lemma main_completes (order : list string) (filePath : string)
    (component : Component) :
  completes (main order filePath component).
Proof.
  unfold main.
  apply completes_bind.
  { unfold checkFilename. destruct (_ && _); repeat line_step. }
  apply completes_bind; [apply checkLine_checkRequiredFields|].
  apply completes_bind.
  { unfold checkType. destruct (_ && _); repeat line_step. }
  apply completes_bind.
  { unfold checkMetadataLicense. destruct (negb _); repeat line_step. }
  apply completes_bind.
  { unfold checkName. destruct (_ <? _); repeat line_step. }
  apply completes_bind.
  { unfold checkSummary. destruct (_ <? _); repeat line_step. }
  apply completes_bind.
  { unfold checkLaunchable. destruct (negb _); repeat line_step. }
  apply completes_bind; [apply checkLine_checkScreenshots|].
  unfold completes, Println, stdout, outcome; simpl.
  split; [|done]. split; [done|]. intros _. apply list_elem_of_singleton. done.
Qed.


(** ** Step 7: the launchable *)

(** X5. A launchable type other than "desktop-id" is never accepted: the
    run ends with exit status 1 whatever the rest of the document, the file
    name and the iteration order. When steps 1 to 6 have passed, the run
    prints the licence warning if it applies, then the launchable Error and
    the actual type. *)
Theorem launchable_type_rejected (order : list string) (filePath : string)
    (component : Component)
    (Hlaunch : LaunchableType (Launchable_ component) ≠ "desktop-id") :
  exitStatus (main order filePath component) = 1 ∧
  (filenameMatches filePath component → allPresent component →
   typeAllowed component → 2 ≤ len (Name component) →
   10 ≤ len (Summary component) →
   main order filePath component
     = ((if bool_decide (MetadataLicense component ∈ allowedLicenses)
         then [] else licenseWarning component)
        ++ ["Error: Launchable type must be 'desktop-id'";
            "Actual launchable type: " +:+ LaunchableType (Launchable_ component)],
        inl (Exit 1))).
Proof.
  split.
  - apply exitStatus_exit1. unfold main.
    apply exit1_bind_r; [apply checkFilename_passOrExit1|].
    apply exit1_bind_r; [apply checkRequiredFields_passOrExit1|].
    apply exit1_bind_r; [apply checkType_passOrExit1|].
    apply exit1_bind_r; [left; apply checkMetadataLicense_outcome|].
    apply exit1_bind_r; [apply checkName_passOrExit1|].
    apply exit1_bind_r; [apply checkSummary_passOrExit1|].
    apply exit1_bind_l. by rewrite (checkLaunchable_other _ Hlaunch).
  - intros Hfile Hpresent Htype Hname Hsummary.
    rewrite (main_filename_match _ _ _ Hfile).
    rewrite (checkRequiredFields_allPresent _ _ Hpresent), (bind_ret_l tt).
    rewrite (checkType_allowed _ Htype), (bind_ret_l tt).
    rewrite (checkName_long _ Hname), (checkSummary_long _ Hsummary).
    rewrite (checkLaunchable_other _ Hlaunch).
    case_bool_decide as Hlicense.
    + by rewrite (checkMetadataLicense_allowed _ Hlicense).
    + by rewrite (checkMetadataLicense_not_allowed _ Hlicense).
Qed.

Lemma launchable_type_rejected_witness :
  LaunchableType (Launchable_ (withLaunchable "service" "editor.service" minimalDocument))
    ≠ "desktop-id" ∧
  exitStatus (main fieldNames "org.example.Editor.metainfo.xml"
                (withLaunchable "service" "editor.service" minimalDocument)) = 1.
Proof.
  assert (LaunchableType
            (Launchable_ (withLaunchable "service" "editor.service" minimalDocument))
          ≠ "desktop-id") as Hlaunch by discriminate.
  split; [exact Hlaunch|].
  exact (proj1 (launchable_type_rejected fieldNames "org.example.Editor.metainfo.xml"
                  (withLaunchable "service" "editor.service" minimalDocument)
                  Hlaunch)).
Defined.

(** ** Step 9: the loop stops at the first failure *)

(** X6. The loop over the screenshots ends at the first screenshot that is
    not acceptable, with the finding of that screenshot alone: the
    screenshots after it are never examined, whatever they contain. *)
Theorem rangeScreenshots_stops_at_first_bad (good rest : list Screenshot)
    (bad : Screenshot)
    (Hgood : Forall screenshotOk good) (Hbad : ¬ screenshotOk bad) :
  rangeScreenshots (good ++ bad :: rest) = checkScreenshot bad ∧
  ∃ out h, checkScreenshot bad = (out, inl h).
Proof.
  destruct (checkScreenshot_bad_halts _ Hbad) as (out & h & E).
  split; [|by exists out, h].
  rewrite (rangeScreenshots_app _ _ Hgood). simpl. by rewrite E.
Qed.

Lemma rangeScreenshots_stops_witness :
  rangeScreenshots
    ([screenshotOf "video" "ftp://x"]
     ++ screenshotOf "poster" "" :: [screenshotOf "source" "ftp://x"])
  = imageTypeError.
Proof.
  assert (¬ screenshotOk (screenshotOf "poster" "")) as Hbad
    by (intros [[H|[H|H]] _]; discriminate H).
  assert (Forall screenshotOk [screenshotOf "video" "ftp://x"]) as Hgood.
  { constructor; [|constructor]. split; [right; left; reflexivity|].
    intros H; discriminate H. }
  exact (proj1 (rangeScreenshots_stops_at_first_bad _
                  [screenshotOf "source" "ftp://x"] _ Hgood Hbad)).
Defined.

(** ** The extension loop on its own *)

(** X7. For every source and every list of candidate extensions the loop
    of lines 197-203 returns without panicking, and it finds the source
    valid exactly when some candidate is a proper suffix of it: because the
    length guard is strict, a source that is nothing but an extension is
    not valid. *)
Theorem extension_loop_proper_suffix (source : string) (exts : list string) :
  ∃ valid : bool,
    hasValidExtension source exts = mret valid ∧
    (valid = true ↔ ∃ ext stem, ext ∈ exts ∧ stem ≠ "" ∧ source = stem +:+ ext).
Proof.
  destruct (hasValidExtension_spec source exts) as (valid & E & Hvalid).
  exists valid. split; [exact E|]. rewrite Hvalid. split.
  - intros (ext & Hin & Hlen & [stem ->]). exists ext, stem.
    split; [done|]. split; [|done]. intros ->.
    unfold len in Hlen. rewrite string_app_length in Hlen. simpl in Hlen. lia.
  - intros (ext & stem & Hin & Hstem & ->). exists ext. split; [done|].
    split; [|by exists stem].
    unfold len. rewrite string_app_length. destruct stem; [done | simpl; lia].
Qed.

(** ** The prefix check, case by case *)

(** X12. The prefix check passes exactly when the source starts with
    "http://" or "https://", and it reports the prefix Error exactly when
    the source has neither prefix and is not seven bytes long. *)
Theorem prefix_check_outcomes (source : string) :
  (checkSourcePrefix source = mret tt
   ↔ hasPrefix source "http://" ∨ hasPrefix source "https://") ∧
  (checkSourcePrefix source = prefixError
   ↔ ¬ (hasPrefix source "http://" ∨ hasPrefix source "https://")
     ∧ len source ≠ 7).
Proof.
  fold (httpPrefix source). split.
  - split; [by intros [? _]%checkSourcePrefix_pass | apply checkSourcePrefix_http].
  - split.
    + intros E. split.
      * intros Hp%checkSourcePrefix_http. rewrite Hp in E. discriminate E.
      * intros H7. destruct (String.eqb_spec source "http://") as [->|Hne];
          [discriminate E|].
        assert (checkSourcePrefix source = ([], inl (PanicSliceBounds 8 7))) as Ep
          by (by apply checkSourcePrefix_panics).
        rewrite Ep in E. discriminate E.
    + intros [Hn H7]. destruct (Z_lt_le_dec (len source) 7) as [Hl|Hl].
      * by apply checkSourcePrefix_short.
      * apply checkSourcePrefix_long_other; [lia | done].
Qed.

(** ** Step 2: which field is reported *)

Lemma firstEmpty_app (before after : list string) (field : string)
    (m : gmap string string) :
  m !! field = Some "" → (∀ k, k ∈ before → m !! k ≠ Some "") →
  firstEmpty (before ++ field :: after) m = Some field.
Proof.
  intros Hfield. induction before as [|k before IH]; intros Hbefore; simpl.
  - by rewrite Hfield.
  - assert (m !! k ≠ Some "") as Hk by (apply Hbefore; left).
    assert (firstEmpty (before ++ field :: after) m = Some field) as ->
      by (apply IH; intros k' Hin; apply Hbefore; by right).
    destruct (m !! k) as [v|]; [|done].
    destruct (String.eqb_spec v "") as [->|Hv]; done.
Qed.

(** X11. The presence check reports the first key, in the order of the
    iteration, whose field is empty, and only that one: keys visited before
    it have non-empty values, and what comes after it is not looked at. *)
Theorem presence_reports_first_empty (before after : list string) (field : string)
    (component : Component)
    (Hfield : requiredFields component !! field = Some "")
    (Hbefore : ∀ k, k ∈ before → requiredFields component !! k ≠ Some "") :
  checkRequiredFields (before ++ field :: after) component = presenceError field.
Proof.
  unfold checkRequiredFields. rewrite rangeMap_requiredBody.
  by rewrite (firstEmpty_app _ _ _ _ Hfield Hbefore).
Qed.

Lemma presence_reports_first_empty_witness :
  checkRequiredFields
    (["Type"; "Description"] ++ "Summary" :: ["Name"; "ID"]) twoAbsentDocument
  = presenceError "Summary".
Proof.
  apply (presence_reports_first_empty ["Type"; "Description"] ["Name"; "ID"]
           "Summary" twoAbsentDocument).
  - reflexivity.
  - intros k Hin. rewrite !elem_of_cons, elem_of_nil in Hin.
    destruct Hin as [->|[->|[]]]; discriminate.
Defined.

(** ** Step 4 changes nothing else *)







(** ** Step 1 and paths with a directory *)

Lemma hasByte_app (c : ascii) (a b : string) :
  hasByte c (a +:+ b) = hasByte c a || hasByte c b.
Proof.
  induction a as [|c' a IH]; [done|].
  change (hasByte c (String c' (a +:+ b))
          = hasByte c (String c' a) || hasByte c b).
  simpl. by destruct (Ascii.eqb c c').
Qed.

(** X9. The file name is compared as it was given on the command line:
    a path that contains a "/" is rejected at step 1 unless the id itself
    contains one, so a document has to be checked from its own directory. *)
Theorem path_with_directory_rejected (order : list string) (filePath : string)
    (component : Component)
    (Hpath : hasByte "/" filePath = true)
    (Hid : hasByte "/" (ID component) = false) :
  main order filePath component = filenameError filePath component.
Proof.
  apply main_filename_mismatch. intros [H|H]; rewrite H, hasByte_app, Hid in Hpath;
    discriminate Hpath.
Qed.

Lemma path_with_directory_rejected_witness :
  main fieldNames "/usr/share/metainfo/org.example.Editor.metainfo.xml"
    minimalDocument
  = filenameError "/usr/share/metainfo/org.example.Editor.metainfo.xml"
      minimalDocument.
Proof.
  apply (path_with_directory_rejected fieldNames
           "/usr/share/metainfo/org.example.Editor.metainfo.xml" minimalDocument);
    reflexivity.
Defined.

(** ** The whole program *)

(** X10. The program ends with exit status 0 exactly when there is a
    second command-line argument, the file of that name opens, reads and
    decodes, and the decoded document with that name satisfies the mandatory
    rules. Arguments after the second are ignored. *)
Theorem program_accepted_iff {File Bytes : Type}
    (os_Open : string → string + File)
    (ioutil_ReadAll : File → string + Bytes)
    (xml_Unmarshal : Bytes → string + Component)
    (order os_Args : list string) (Horder : order ≡ₚ fieldNames) :
  exitStatus (program os_Open ioutil_ReadAll xml_Unmarshal order os_Args) = 0
  ↔ ∃ arg0 filePath rest xmlFile byteValue component,
      os_Args = arg0 :: filePath :: rest ∧
      os_Open filePath = inr xmlFile ∧
      ioutil_ReadAll xmlFile = inr byteValue ∧
      xml_Unmarshal byteValue = inr component ∧
      mandatoryRules filePath component.
Proof.
  unfold program.
  destruct os_Args as [|arg0 [|filePath rest]].
  - split; [discriminate|]. by intros (? & ? & ? & ? & ? & ? & ? & _).
  - split; [discriminate|]. by intros (? & ? & ? & ? & ? & ? & ? & _).
  - destruct (os_Open filePath) as [err|xmlFile] eqn:Eopen.
    { split; [discriminate|].
      intros (? & ? & ? & ? & ? & ? & [= <- <- <-] & ? & _). congruence. }
    destruct (ioutil_ReadAll xmlFile) as [err|byteValue] eqn:Eread.
    { split; [discriminate|].
      intros (? & ? & ? & ? & ? & ? & [= <- <- <-] & ? & ? & _). congruence. }
    destruct (xml_Unmarshal byteValue) as [err|component] eqn:Edecode.
    { split; [discriminate|].
      intros (? & ? & ? & ? & ? & ? & [= <- <- <-] & ? & ? & ? & _). congruence. }
    rewrite main_exit0_iff by (by apply iterationOrder_fieldNames). split.
    + intros Hrules. by exists arg0, filePath, rest, xmlFile, byteValue, component.
    + intros (? & ? & ? & ? & ? & ? & [= <- <- <-] & ? & ? & ? & ?). congruence.
Qed.

Lemma program_accepted_iff_witness :
  fieldNames ≡ₚ fieldNames ∧
  exitStatus
    (program (File := unit) (Bytes := string)
       (λ path, if (path =? "org.example.Editor.metainfo.xml")%string
                then inr tt else inl "no such file or directory")
       (λ _, inr "<component type='desktop-application'/>")
       (λ _, inr gplMetadataDocument)
       fieldNames ["appstreamlint"; "org.example.Editor.metainfo.xml"; "-v"]) = 0.
Proof.
  assert (fieldNames ≡ₚ fieldNames) as Horder by reflexivity.
  split; [exact Horder|].
  apply (program_accepted_iff _ _ _ fieldNames _ Horder).
  exists "appstreamlint", "org.example.Editor.metainfo.xml", ["-v"], tt,
    "<component type='desktop-application'/>", gplMetadataDocument.
  repeat (split; [reflexivity|]).
  exact mandatoryRules_gplMetadataDocument.
Defined.

(** * Standard output, line by line *)

(** A text handed to [Println] is one line of the output only if it has no
    line feed in it. The file name, the id, the licence, the launchable type
    and the end of a source are echoed as they are, so the statements about
    lines below ask for them to be free of line feeds. *)

Lemma hasByte_cons (c c' : ascii) (s : string) :
  hasByte c (String c' s) = if Ascii.eqb c c' then true else hasByte c s.
Proof. reflexivity. Qed.

Lemma linesOf_cons (c : ascii) (rest : string) :
  linesOf (String c rest)
  = if Ascii.eqb LF c then "" :: linesOf rest
    else match linesOf rest with
         | [] => [String c ""]
         | line :: lines => String c line :: lines
         end.
Proof. reflexivity. Qed.

Lemma linesOf_text (text rest : string) :
  oneLine text → linesOf (text +:+ String LF rest) = text :: linesOf rest.
Proof.
  unfold oneLine. induction text as [|c text IH].
  - intros _. change (linesOf (String LF rest) = "" :: linesOf rest).
    by rewrite linesOf_cons.
  - change (hasByte LF (String c text) = false →
            linesOf (String c (text +:+ String LF rest))
            = String c text :: linesOf rest).
    rewrite hasByte_cons, linesOf_cons.
    destruct (Ascii.eqb LF c); [discriminate|].
    intros Hone. by rewrite (IH Hone).
Qed.

Lemma linesOf_standardOutput (texts : list string) :
  Forall oneLine texts → linesOf (standardOutput texts) = texts.
Proof.
  induction 1 as [|text texts Hone _ IH]; simpl; [done|].
  by rewrite (linesOf_text _ _ Hone), IH.
Qed.

Lemma hasByte_substring (c : ascii) (n m : nat) (s : string) :
  hasByte c s = false → hasByte c (String.substring n m s) = false.
Proof.
  revert n m. induction s as [|c' s IH]; intros n m.
  - intros _. by destruct n, m.
  - rewrite hasByte_cons. destruct (Ascii.eqb c c') eqn:E; [discriminate|].
    intros Hs. destruct n as [|n].
    + destruct m as [|m]; [reflexivity|].
      change (hasByte c (String c' (String.substring 0 m s)) = false).
      rewrite hasByte_cons, E. by apply IH.
    + change (hasByte c (String.substring n m s) = false). by apply IH.
Qed.

Lemma oneLine_checkRequiredFields (order : list string) (component : Component) :
  prints oneLine (checkRequiredFields order component).
Proof.
  unfold checkRequiredFields. rewrite rangeMap_requiredBody.
  destruct (firstEmpty _ _) as [k|] eqn:Hfirst; [|apply prints_ret].
  apply firstEmpty_Some in Hfirst as [_ Hk].
  assert (k ∈ fieldNames) as Hin
    by (apply (requiredFields_is_Some component); by exists "").
  unfold fieldNames in Hin. rewrite !elem_of_cons, elem_of_nil in Hin.
  intros line Hline. unfold presenceError, stdout in Hline; simpl in Hline.
  apply list_elem_of_singleton in Hline as ->.
  destruct Hin as [->|[->|[->|[->|[->|[->|[->|[->|[->|[]]]]]]]]]]; reflexivity.
Qed.

Lemma oneLine_checkScreenshot (screenshot : Screenshot) :
  oneLine (Source (ScreenshotImage screenshot)) →
  prints oneLine (checkScreenshot screenshot).
Proof.
  intros Hsource line.
  destruct (checkScreenshot_cases screenshot)
    as [[_ E]|[_ [[_ E]|[(_ & _ & E)|[[_ E]|(_ & _ & E)]]]]]; rewrite E;
    unfold stdout; simpl; rewrite ?elem_of_cons, ?elem_of_nil;
    intros H; repeat (destruct H as [->|H]; [try reflexivity|]); try done.
  unfold oneLine, lastBytes. rewrite hasByte_app. simpl.
  by apply hasByte_substring.
Qed.

Lemma oneLine_rangeScreenshots (screenshots : list Screenshot) :
  Forall (λ screenshot, oneLine (Source (ScreenshotImage screenshot))) screenshots →
  prints oneLine (rangeScreenshots screenshots).
Proof.
  induction 1 as [|screenshot rest Hone _ IH]; simpl; [apply prints_ret|].
  apply prints_bind; [by apply oneLine_checkScreenshot | intros _; exact IH].
Qed.

Ltac one_line_step :=
  first
    [ apply prints_ret
    | apply prints_halt
    | apply prints_Println; unfold oneLine; rewrite ?hasByte_app;
      repeat match goal with H : oneLine _ |- _ => rewrite H end; reflexivity
    | apply prints_bind; [|intros ?] ].

Lemma oneLine_main (order : list string) (filePath : string) (component : Component) :
  oneLineFields filePath component →
  prints oneLine (main order filePath component).
Proof.
  intros (Hpath & Hid & Hlicense & Hlaunch & Hsources). unfold main.
  apply prints_bind; [|intros _].
  { unfold checkFilename. destruct (_ && _); repeat one_line_step. }
  apply prints_bind; [apply oneLine_checkRequiredFields | intros _].
  apply prints_bind; [|intros _].
  { unfold checkType. destruct (_ && _); repeat one_line_step. }
  apply prints_bind; [|intros _].
  { unfold checkMetadataLicense. destruct (negb _); repeat one_line_step. }
  apply prints_bind; [|intros _].
  { unfold checkName. destruct (_ <? _); repeat one_line_step. }
  apply prints_bind; [|intros _].
  { unfold checkSummary. destruct (_ <? _); repeat one_line_step. }
  apply prints_bind; [|intros _].
  { unfold checkLaunchable. destruct (negb _); repeat one_line_step. }
  apply prints_bind; [|intros _; one_line_step].
  unfold checkScreenshots.
  destruct (Z.of_nat (length (Screenshots component)) =? 0); [one_line_step|].
  apply prints_bind; [one_line_step | intros _].
  by apply oneLine_rangeScreenshots.
Qed.

(** With no line feed in the echoed strings, the lines of the output are
    the texts handed to [Println], one each. *)
Lemma stdoutLines_main (order : list string) (filePath : string)
    (component : Component) :
  oneLineFields filePath component →
  stdoutLines (main order filePath component)
  = stdout (main order filePath component).
Proof.
  intros Hone. unfold stdoutLines. apply linesOf_standardOutput.
  apply Forall_forall. intros line Hin. by apply (oneLine_main order _ _ Hone).
Qed.


(** X3. When none of the strings a run may echo (the file name, the id,
    the metadata licence, the launchable type, the image sources) has a line
    feed in it, a run that ends with [os.Exit] has written exactly one line
    that starts with "Error: " to standard output, and a run that returns or
    panics has written none. *)
Theorem one_error_line_per_rejection (order : list string) (filePath : string)
    (component : Component) (Hone : oneLineFields filePath component) :
  length (errorLines (stdoutLines (main order filePath component)))
  = match outcome (main order filePath component) with
    | inl (Exit _) => 1%nat
    | _ => 0%nat
    end.
Proof. rewrite (stdoutLines_main _ _ _ Hone). apply main_accounted. Qed.

Lemma oneLineFields_serviceDocument :
  oneLineFields "org.example.Editor.metainfo.xml" serviceDocument.
Proof. repeat split; try reflexivity. constructor. Defined.

Lemma one_error_line_per_rejection_witness :
  oneLineFields "org.example.Editor.metainfo.xml" serviceDocument ∧
  length (errorLines
            (stdoutLines (main fieldNames "org.example.Editor.metainfo.xml"
                            serviceDocument))) = 1%nat.
Proof.
  split; [exact oneLineFields_serviceDocument|].
  exact (one_error_line_per_rejection fieldNames "org.example.Editor.metainfo.xml"
           serviceDocument oneLineFields_serviceDocument).
Defined.

(** X4. Under the same condition on the echoed strings, standard output
    has the line "Validation complete." exactly when the run returns with
    exit status 0, and that line is then the last one. *)
Theorem validation_complete_iff_accepted (order : list string) (filePath : string)
    (component : Component) (Hone : oneLineFields filePath component) :
  ("Validation complete." ∈ stdoutLines (main order filePath component)
   ↔ outcome (main order filePath component) = inr tt) ∧
  (outcome (main order filePath component) = inr tt →
   last (stdoutLines (main order filePath component))
     = Some "Validation complete.").
Proof. rewrite (stdoutLines_main _ _ _ Hone). apply main_completes. Qed.

Lemma oneLineFields_oneScreenshotDocument :
  oneLineFields "org.example.Editor.appdata.xml" oneScreenshotDocument.
Proof. repeat split; try reflexivity. constructor; [reflexivity | constructor]. Defined.

Lemma validation_complete_witness :
  oneLineFields "org.example.Editor.appdata.xml" oneScreenshotDocument ∧
  outcome (main fieldNames "org.example.Editor.appdata.xml" oneScreenshotDocument)
    = inr tt ∧
  last (stdoutLines (main fieldNames "org.example.Editor.appdata.xml"
                       oneScreenshotDocument))
    = Some "Validation complete.".
Proof.
  split; [exact oneLineFields_oneScreenshotDocument|]. split; [reflexivity|].
  exact (proj2 (validation_complete_iff_accepted fieldNames
                  "org.example.Editor.appdata.xml" oneScreenshotDocument
                  oneLineFields_oneScreenshotDocument) eq_refl).
Defined.



(** Why the condition is there: a licence with line feeds in it is echoed
    as it is, and its lines are lines of the output. Here the run ends with
    [os.Exit(1)] at step 7, and standard output has two lines that start
    with "Error: " and a line "Validation complete.". *)
Example echoed_line_feeds_are_lines :
  let component :=
    withMetadataLicense
      ("GPL" +:+ String LF ("Error: injected" +:+ String LF "Validation complete."))
      (withLaunchable "service" "editor.service" minimalDocument) in
  outcome (main fieldNames "org.example.Editor.metainfo.xml" component)
    = inl (Exit 1) ∧
  stdoutLines (main fieldNames "org.example.Editor.metainfo.xml" component)
    = ["Warning: Metadata license is not allowed";
       "Allowed licenses: [FSFAP MIT 0BSD CC0-1.0 CC-BY-3.0 CC-BY-4.0 CC-BY-SA-3.0 CC-BY-SA-4.0 GFDL-1.1 GFDL-1.2 GFDL-1.3 BSL-1.0 FTL FSFUL]";
       "Actual license: GPL";
       "Error: injected";
       "Validation complete.";
       "Error: Launchable type must be 'desktop-id'";
       "Actual launchable type: service"].
Proof. split; by vm_compute. Qed.
